(** * AVR ATmega16 joystick interface: direction classifier, ADC scaling
      and the direction-display polling loop.

    Shallow embedding of [include/config.h], [src/adc.c], [src/joystick.c],
    [src/lcd.c] and the programs [examples/direction_display/main.c],
    [examples/digital_input/main.c] and [examples/adc_reading/main.c].
    Machine integers are [Z] with the conversions to [uint8_t], [uint16_t]
    and [int16_t] written out as [mod]; registers are 8-bit values read and
    written bit by bit. *)

From Stdlib Require Import ZArith List String Ascii Bool Lia.
Import ListNotations.

Local Open Scope Z_scope.
Local Open Scope bool_scope.

(** ** include/config.h *)

Module Config.

Definition JOYSTICK_X_CHANNEL : Z := 0.
Definition JOYSTICK_Y_CHANNEL : Z := 1.

Definition ADC_MIN : Z := 0.
Definition ADC_MAX : Z := 255.
Definition ADC_CENTER : Z := 128.

Definition THRESHOLD_NORTH_Y : Z := 240.
Definition THRESHOLD_SOUTH_Y : Z := 50.
Definition THRESHOLD_EAST_X : Z := 240.
Definition THRESHOLD_WEST_X : Z := 70.

Definition CENTER_X_MIN : Z := 70.
Definition CENTER_X_MAX : Z := 180.
Definition CENTER_Y_MIN : Z := 110.
Definition CENTER_Y_MAX : Z := 160.

Definition DIAGONAL_THRESHOLD_HIGH : Z := 230.
Definition DIAGONAL_THRESHOLD_LOW : Z := 50.

End Config.

(** ** Fixed-width unsigned integers of the target *)

Module Cint.

(** Conversion to [uint8_t]: reduction modulo 2^8. *)
Definition to_uint8 (n : Z) : Z := n mod 256.

(** Conversion to [uint16_t]: reduction modulo 2^16. *)
Definition to_uint16 (n : Z) : Z := n mod 65536.

(** C truth of a scalar used as a condition: non-zero. *)
Definition truthy (n : Z) : bool := negb (n =? 0).

End Cint.

(** ** src/adc.c *)

Module Adc.
Import Cint.

(** [(uint8_t)((uint16_t)value * 100 / 255)].  On the AVR [int] is 16 bits
    wide, so the product is an [unsigned int] and wraps modulo 2^16; the
    division is the unsigned one. *)
Definition adc_to_percent (value : Z) : Z :=
  to_uint8 (to_uint16 (to_uint16 value * 100) / 255).

End Adc.

(** ** include/joystick.h and src/joystick.c *)

Module Joystick.
Import Config Cint.

Inductive joystick_direction_t : Type :=
| DIR_CENTER
| DIR_NORTH
| DIR_SOUTH
| DIR_EAST
| DIR_WEST
| DIR_NORTH_EAST
| DIR_NORTH_WEST
| DIR_SOUTH_EAST
| DIR_SOUTH_WEST.

(** The integer an enumerator stands for: [DIR_CENTER = 0], the others
    counting up in declaration order. *)
Definition enum_val (d : joystick_direction_t) : Z :=
  match d with
  | DIR_CENTER => 0
  | DIR_NORTH => 1
  | DIR_SOUTH => 2
  | DIR_EAST => 3
  | DIR_WEST => 4
  | DIR_NORTH_EAST => 5
  | DIR_NORTH_WEST => 6
  | DIR_SOUTH_EAST => 7
  | DIR_SOUTH_WEST => 8
  end.

Record joystick_position_t : Type := mk_position { pos_x : Z; pos_y : Z }.

(** [static const char* direction_names[]]. *)
Definition direction_names : list string :=
  [ "C"; "N"; "S"; "E"; "W"; "NE"; "NW"; "SE"; "SW" ]%string.

Definition joystick_is_centered (x y : Z) : Z :=
  to_uint8 (Z.b2z ((x >=? CENTER_X_MIN) && (x <=? CENTER_X_MAX) &&
                   (y >=? CENTER_Y_MIN) && (y <=? CENTER_Y_MAX))).

Definition joystick_get_direction (x y : Z) : joystick_direction_t :=
  if truthy (joystick_is_centered x y) then DIR_CENTER
  else if (x >? DIAGONAL_THRESHOLD_HIGH) && (y >? DIAGONAL_THRESHOLD_HIGH)
    then DIR_NORTH_EAST
  else if (x <? DIAGONAL_THRESHOLD_LOW) && (y >? ADC_MAX - DIAGONAL_THRESHOLD_LOW)
    then DIR_NORTH_WEST
  else if (x >? DIAGONAL_THRESHOLD_HIGH) && (y <? DIAGONAL_THRESHOLD_LOW)
    then DIR_SOUTH_EAST
  else if (x <? DIAGONAL_THRESHOLD_LOW) && (y <? DIAGONAL_THRESHOLD_LOW)
    then DIR_SOUTH_WEST
  else if (y >=? THRESHOLD_NORTH_Y) && (x >=? CENTER_X_MIN) && (x <=? CENTER_X_MAX)
    then DIR_NORTH
  else if (y <=? THRESHOLD_SOUTH_Y) && (x >=? CENTER_X_MIN) && (x <=? CENTER_X_MAX)
    then DIR_SOUTH
  else if (x >=? THRESHOLD_EAST_X) && (y >=? CENTER_Y_MIN) && (y <=? CENTER_X_MAX)
    then DIR_EAST
  else if (x <=? THRESHOLD_WEST_X) && (y >=? CENTER_Y_MIN) && (y <=? CENTER_X_MAX)
    then DIR_WEST
  else DIR_CENTER.

(** The parameter has an enumeration type, which in C holds any integer of
    its underlying type, so the argument is the integer.  [EmptyString] is
    only the value of [nth] outside the table, which the guard excludes. *)
Definition joystick_direction_to_string (dir : Z) : string :=
  if (dir >=? 0) && (dir <=? enum_val DIR_SOUTH_WEST)
  then nth (Z.to_nat dir) direction_names EmptyString
  else "?"%string.

End Joystick.

(** ** include/lcd.h: the display as seen by its callers *)

Module Lcd.

(** One call into the LCD driver.  The display is the log of the calls
    made so far, oldest first. *)
Inductive lcd_call : Type :=
| Lcd_init
| Lcd_set_cursor (row col : Z)
| Lcd_print (str : string).

End Lcd.

(** ** examples/direction_display/main.c *)

Module DirectionDisplay.
Import Joystick Lcd.

(** What survives from one cycle of [while (1)] to the next: the local
    [last_dir] and the display. *)
Record main_state : Type :=
  mk_state { last_dir : joystick_direction_t; lcd : list lcd_call }.

(** The state on entry to the loop: [last_dir = DIR_CENTER], the
    peripherals initialised and the startup message printed. *)
Definition main_init : main_state :=
  {| last_dir := DIR_CENTER;
     lcd := [ Lcd_init; Lcd_print "Direction:"; Lcd_set_cursor 1 0;
              Lcd_print "C" ] |}.

(** The calls in the body of [if (dir != last_dir)]. *)
Definition update_display (dir : joystick_direction_t) : list lcd_call :=
  [ Lcd_set_cursor 1 0; Lcd_print "   ";
    Lcd_set_cursor 1 0;
    Lcd_print (joystick_direction_to_string (enum_val dir)) ].

(** One cycle of the loop; [pos] is what [joystick_read] stored. *)
Definition loop_body (st : main_state) (pos : joystick_position_t)
  : main_state :=
  let dir := joystick_get_direction (pos_x pos) (pos_y pos) in
  if negb (enum_val dir =? enum_val (last_dir st))
  then {| last_dir := dir; lcd := lcd st ++ update_display dir |}
  else st.

(** The loop run for one cycle per sample, from [st]. *)
Definition main_loop_from (st : main_state)
           (samples : list joystick_position_t) : main_state :=
  fold_left loop_body samples st.

Definition main_loop (samples : list joystick_position_t) : main_state :=
  main_loop_from main_init samples.

End DirectionDisplay.

(** ** The specification's reading of the classifier and of the loop *)

Module Spec.
Import Config Joystick.

(** A rule of the cascade: a guard on the position and the direction it
    selects. *)
Definition rule : Type := ((Z -> Z -> bool) * joystick_direction_t)%type.

Definition in_center_x (x : Z) : bool :=
  (CENTER_X_MIN <=? x) && (x <=? CENTER_X_MAX).

Definition in_center_y (y : Z) : bool :=
  (CENTER_Y_MIN <=? y) && (y <=? CENTER_Y_MAX).

(** Rules 1 to 3 of the specification, in priority order. *)
Definition rules : list rule :=
  [ (fun x y => in_center_x x && in_center_y y, DIR_CENTER);
    (fun x y => (DIAGONAL_THRESHOLD_HIGH <? x) && (DIAGONAL_THRESHOLD_HIGH <? y),
     DIR_NORTH_EAST);
    (fun x y => (x <? DIAGONAL_THRESHOLD_LOW) && (255 - DIAGONAL_THRESHOLD_LOW <? y),
     DIR_NORTH_WEST);
    (fun x y => (DIAGONAL_THRESHOLD_HIGH <? x) && (y <? DIAGONAL_THRESHOLD_LOW),
     DIR_SOUTH_EAST);
    (fun x y => (x <? DIAGONAL_THRESHOLD_LOW) && (y <? DIAGONAL_THRESHOLD_LOW),
     DIR_SOUTH_WEST);
    (fun x y => (THRESHOLD_NORTH_Y <=? y) && in_center_x x, DIR_NORTH);
    (fun x y => (y <=? THRESHOLD_SOUTH_Y) && in_center_x x, DIR_SOUTH);
    (fun x y => (THRESHOLD_EAST_X <=? x) && in_center_y y, DIR_EAST);
    (fun x y => (x <=? THRESHOLD_WEST_X) && in_center_y y, DIR_WEST) ].

(** First match wins; rule 4, the fallback, is [DIR_CENTER]. *)
Definition classify (x y : Z) : joystick_direction_t :=
  match find (fun r : rule => fst r x y) rules with
  | Some r => snd r
  | None => DIR_CENTER
  end.

(** The label table of the specification. *)
Definition label (d : joystick_direction_t) : string :=
  match d with
  | DIR_CENTER => "C"
  | DIR_NORTH => "N"
  | DIR_SOUTH => "S"
  | DIR_EAST => "E"
  | DIR_WEST => "W"
  | DIR_NORTH_EAST => "NE"
  | DIR_NORTH_WEST => "NW"
  | DIR_SOUTH_EAST => "SE"
  | DIR_SOUTH_WEST => "SW"
  end.

Definition labels : list string :=
  [ "C"; "N"; "S"; "E"; "W"; "NE"; "NW"; "SE"; "SW" ]%string.

Definition all_directions : list joystick_direction_t :=
  [ DIR_CENTER; DIR_NORTH; DIR_SOUTH; DIR_EAST; DIR_WEST;
    DIR_NORTH_EAST; DIR_NORTH_WEST; DIR_SOUTH_EAST; DIR_SOUTH_WEST ].

Definition direction_eqb (a b : joystick_direction_t) : bool :=
  enum_val a =? enum_val b.

(** The directions of a run of samples, one per cycle. *)
Definition classified (samples : list joystick_position_t)
  : list joystick_direction_t :=
  map (fun p => joystick_get_direction (pos_x p) (pos_y p)) samples.

(** The directions dispatched over a run: each one that differs from the
    direction of the cycle before it, [prev] standing for the cycle before
    the first. *)
Fixpoint dispatched (prev : joystick_direction_t)
         (dirs : list joystick_direction_t) : list joystick_direction_t :=
  match dirs with
  | [] => []
  | d :: rest =>
      (if direction_eqb d prev then [] else [d]) ++ dispatched d rest
  end.

(** No two neighbours of the list are equal. *)
Fixpoint no_repeat (l : list joystick_direction_t) : Prop :=
  match l with
  | a :: (b :: _) as tl => a <> b /\ no_repeat tl
  | _ => True
  end.

(** The position lies in none of the nine guarded regions of
    [joystick_get_direction]. *)
Definition uncovered (x y : Z) : Prop :=
  ~ (CENTER_X_MIN <= x <= CENTER_X_MAX /\ CENTER_Y_MIN <= y <= CENTER_Y_MAX) /\
  ~ (x > DIAGONAL_THRESHOLD_HIGH /\ y > DIAGONAL_THRESHOLD_HIGH) /\
  ~ (x < DIAGONAL_THRESHOLD_LOW /\ y > ADC_MAX - DIAGONAL_THRESHOLD_LOW) /\
  ~ (x > DIAGONAL_THRESHOLD_HIGH /\ y < DIAGONAL_THRESHOLD_LOW) /\
  ~ (x < DIAGONAL_THRESHOLD_LOW /\ y < DIAGONAL_THRESHOLD_LOW) /\
  ~ (y >= THRESHOLD_NORTH_Y /\ CENTER_X_MIN <= x <= CENTER_X_MAX) /\
  ~ (y <= THRESHOLD_SOUTH_Y /\ CENTER_X_MIN <= x <= CENTER_X_MAX) /\
  ~ (x >= THRESHOLD_EAST_X /\ CENTER_Y_MIN <= y <= CENTER_X_MAX) /\
  ~ (x <= THRESHOLD_WEST_X /\ CENTER_Y_MIN <= y <= CENTER_X_MAX).

End Spec.

(** ** Reading the display log back *)

Module DisplayLog.
Import Joystick Lcd.

(** The direction a printed string is the label of, by the label table of
    the specification; no direction for any other string. *)
Definition direction_of_label (s : string) : option joystick_direction_t :=
  find (fun d => String.eqb s (Spec.label d)) Spec.all_directions.

(** The directions the display was told, oldest first: one for every print
    of a label. *)
Fixpoint shown (log : list lcd_call) : list joystick_direction_t :=
  match log with
  | [] => []
  | Lcd_print s :: rest =>
      match direction_of_label s with
      | Some d => d :: shown rest
      | None => shown rest
      end
  | _ :: rest => shown rest
  end.

End DisplayLog.

(** ** Bit numbers of <avr/io.h> *)

Module AvrIo.

(** The register bit numbers that the device header supplies.  The header is
    not part of the repository, so the numbers are parameters of the
    development. *)
Class avr_io : Type := {
  REFS0 : Z; ADLAR : Z;
  PB0 : Z; PB1 : Z; PB2 : Z;
  PD1 : Z; PD4 : Z; PD6 : Z }.

(** [ADLAR] and [REFS0] are two different bits of the upper half of the
    8-bit register [ADMUX], whose lower half selects the channel. *)
Definition admux_bits_ok (io : avr_io) : Prop :=
  4 <= ADLAR <= 7 /\ 4 <= REFS0 <= 7 /\ ADLAR <> REFS0.

(** [PB0], [PB1] and [PB2] are three different pins of an 8-bit port. *)
Definition portb_pins_ok (io : avr_io) : Prop :=
  0 <= PB0 <= 7 /\ 0 <= PB1 <= 7 /\ 0 <= PB2 <= 7 /\
  PB0 <> PB1 /\ PB0 <> PB2 /\ PB1 <> PB2.

(** [PD1] is one of the input pins 0-3 of port D, [PD4] and [PD6] are two
    different ones of its output pins 4-7. *)
Definition portd_pins_ok (io : avr_io) : Prop :=
  0 <= PD1 <= 3 /\ 4 <= PD4 <= 7 /\ 4 <= PD6 <= 7 /\ PD4 <> PD6.

(** The numbering of the ATmega16, as an example device. *)
Definition atmega16 : avr_io :=
  {| REFS0 := 6; ADLAR := 5; PB0 := 0; PB1 := 1; PB2 := 2;
     PD1 := 1; PD4 := 4; PD6 := 6 |}.

End AvrIo.

(** ** Read-modify-write of an 8-bit register, 16-bit signed integers *)

Module Bits.
Import Cint.

(** [reg |= (1 << n)]. *)
Definition set_bit (n reg : Z) : Z := to_uint8 (Z.lor reg (Z.shiftl 1 n)).

(** [reg &= ~(1 << n)]. *)
Definition clear_bit (n reg : Z) : Z :=
  to_uint8 (Z.land reg (Z.lnot (Z.shiftl 1 n))).

(** Conversion to [int16_t]: two's complement on 16 bits. *)
Definition to_int16 (n : Z) : Z := (n + 32768) mod 65536 - 32768.

End Bits.

(** ** src/adc.c: what the driver writes to ADMUX *)

Module AdcRegs.
Import Cint Bits AvrIo Config.

Section WithAdcBits.
Context {io : avr_io}.

(** [ADMUX = (1 << REFS0) | (1 << ADLAR)] of [adc_init]. *)
Definition adc_init_ADMUX : Z :=
  to_uint8 (Z.lor (Z.shiftl 1 REFS0) (Z.shiftl 1 ADLAR)).

(** [ADMUX = (ADMUX & 0xF0) | (channel & 0x0F)], the first statement of both
    read functions. *)
Definition adc_select_channel (admux channel : Z) : Z :=
  to_uint8 (Z.lor (Z.land admux 240) (Z.land channel 15)).

(** ADMUX after [adc_read(channel)]: channel selected, then
    [ADMUX &= ~(1 << ADLAR)]. *)
Definition adc_read_ADMUX (admux channel : Z) : Z :=
  clear_bit ADLAR (adc_select_channel admux channel).

(** ADMUX after [adc_read_8bit(channel)]: channel selected, then
    [ADMUX |= (1 << ADLAR)]. *)
Definition adc_read_8bit_ADMUX (admux channel : Z) : Z :=
  set_bit ADLAR (adc_select_channel admux channel).

(** A call of one of the two read functions. *)
Inductive adc_call : Type :=
| Adc_read (channel : Z)
| Adc_read_8bit (channel : Z).

Definition adc_call_ADMUX (admux : Z) (c : adc_call) : Z :=
  match c with
  | Adc_read channel => adc_read_ADMUX admux channel
  | Adc_read_8bit channel => adc_read_8bit_ADMUX admux channel
  end.

(** ADMUX after [adc_init] followed by the calls, oldest first. *)
Definition adc_calls_ADMUX (calls : list adc_call) : Z :=
  fold_left adc_call_ADMUX calls adc_init_ADMUX.

(** The reads of [joystick_read]: X on its channel, then Y. *)
Definition joystick_read_calls : list adc_call :=
  [ Adc_read_8bit JOYSTICK_X_CHANNEL; Adc_read_8bit JOYSTICK_Y_CHANNEL ].

End WithAdcBits.

End AdcRegs.

(** ** src/lcd.c on the port registers *)

Module LcdDriver.
Import Cint Bits AvrIo Lcd.

(** LCD part of [config.h]. *)
Definition LCD_CMD_FUNCTION_SET : Z := 56.
Definition LCD_CMD_DISPLAY_ON : Z := 14.
Definition LCD_CMD_CLEAR : Z := 1.
Definition LCD_CMD_ENTRY_MODE : Z := 6.
Definition LCD_CMD_LINE1 : Z := 128.
Definition LCD_CMD_LINE2 : Z := 192.

(** The two ports of the display with their direction registers, and the
    bus: for every enable pulse so far, oldest first, the values of the
    control and the data port while the enable pin was high. *)
Record lcd_io : Type := mk_lcd_io {
  LCD_CTRL_PORT : Z;
  LCD_CTRL_DDR : Z;
  LCD_DATA_PORT : Z;
  LCD_DATA_DDR : Z;
  lcd_bus : list (Z * Z) }.

Definition with_ctrl_port (v : Z) (st : lcd_io) : lcd_io :=
  mk_lcd_io v (LCD_CTRL_DDR st) (LCD_DATA_PORT st) (LCD_DATA_DDR st) (lcd_bus st).

Definition with_data_port (v : Z) (st : lcd_io) : lcd_io :=
  mk_lcd_io (LCD_CTRL_PORT st) (LCD_CTRL_DDR st) v (LCD_DATA_DDR st) (lcd_bus st).

(** A C string in memory: the characters and the terminating zero. *)
Definition c_string (s : string) : list Z :=
  map (fun a => Z.of_nat (nat_of_ascii a)) (list_ascii_of_string s) ++ [0].

Section WithLcdPins.
Context {io : avr_io}.

Definition LCD_RS_PIN : Z := PB0.
Definition LCD_RW_PIN : Z := PB1.
Definition LCD_EN_PIN : Z := PB2.

Definition lcd_enable_pulse (st : lcd_io) : lcd_io :=
  let high := set_bit LCD_EN_PIN (LCD_CTRL_PORT st) in
  mk_lcd_io (clear_bit LCD_EN_PIN high) (LCD_CTRL_DDR st) (LCD_DATA_PORT st)
            (LCD_DATA_DDR st) (lcd_bus st ++ [(high, LCD_DATA_PORT st)]).

Definition lcd_command (cmd : Z) (st : lcd_io) : lcd_io :=
  let st := with_ctrl_port (clear_bit LCD_RS_PIN (LCD_CTRL_PORT st)) st in
  let st := with_ctrl_port (clear_bit LCD_RW_PIN (LCD_CTRL_PORT st)) st in
  let st := with_data_port (to_uint8 cmd) st in
  lcd_enable_pulse st.

Definition lcd_data (data : Z) (st : lcd_io) : lcd_io :=
  let st := with_ctrl_port (set_bit LCD_RS_PIN (LCD_CTRL_PORT st)) st in
  let st := with_ctrl_port (clear_bit LCD_RW_PIN (LCD_CTRL_PORT st)) st in
  let st := with_data_port (to_uint8 data) st in
  lcd_enable_pulse st.

Definition lcd_init (st : lcd_io) : lcd_io :=
  let st :=
    mk_lcd_io (LCD_CTRL_PORT st)
      (to_uint8 (Z.lor (LCD_CTRL_DDR st)
                   (Z.lor (Z.lor (Z.shiftl 1 LCD_RS_PIN) (Z.shiftl 1 LCD_RW_PIN))
                      (Z.shiftl 1 LCD_EN_PIN))))
      (LCD_DATA_PORT st) 255 (lcd_bus st) in
  let st := lcd_command LCD_CMD_FUNCTION_SET st in
  let st := lcd_command LCD_CMD_DISPLAY_ON st in
  let st := lcd_command LCD_CMD_CLEAR st in
  let st := lcd_command LCD_CMD_ENTRY_MODE st in
  lcd_command LCD_CMD_LINE1 st.


Definition lcd_set_cursor (row col : Z) (st : lcd_io) : lcd_io :=
  let address :=
    if row =? 0 then to_uint8 (LCD_CMD_LINE1 + col)
    else to_uint8 (LCD_CMD_LINE2 + col) in
  lcd_command address st.

(** The loop of [lcd_print]: one [lcd_data] per character up to the
    terminating zero.  [str] is the memory from the pointer on, and the end
    of the list the end of what is modelled of it. *)
Fixpoint lcd_print (str : list Z) (st : lcd_io) : lcd_io :=
  match str with
  | [] => st
  | c :: rest => if truthy c then lcd_print rest (lcd_data c st) else st
  end.

Definition lcd_putc (c : Z) (st : lcd_io) : lcd_io := lcd_data c st.

(** A logged driver call carried out on the ports. *)
Definition lcd_exec (st : lcd_io) (c : lcd_call) : lcd_io :=
  match c with
  | Lcd_init => lcd_init st
  | Lcd_set_cursor row col => lcd_set_cursor row col st
  | Lcd_print str => lcd_print (c_string str) st
  end.

Definition lcd_exec_all (st : lcd_io) (calls : list lcd_call) : lcd_io :=
  fold_left lcd_exec calls st.

(** What the display latches at the enable pulses: the register-select
    level (false: command, true: character) and the data byte. *)
Definition lcd_received (st : lcd_io) : list (bool * Z) :=
  map (fun s => (Z.testbit (fst s) LCD_RS_PIN, snd s)) (lcd_bus st).

End WithLcdPins.

End LcdDriver.

(** ** examples/digital_input/main.c *)

Module DigitalInput.
Import Cint Bits AvrIo.

(** Port D as the program drives it: the register and every value written
    to it so far, oldest first. *)
Record portd_state : Type := mk_portd { PORTD : Z; portd_writes : list Z }.

Definition portd_write (f : Z -> Z) (st : portd_state) : portd_state :=
  let v := f (PORTD st) in mk_portd v (portd_writes st ++ [v]).

Section WithPortD.
Context {io : avr_io}.

(** [PORTD = 0x0F] before the loop. *)
Definition digital_init : portd_state := mk_portd 15 [15].

(** One cycle of [while (1)]; [pind1] and [pind2] are what the two reads of
    [PIND] return. *)
Definition digital_cycle (st : portd_state) (pind : Z * Z) : portd_state :=
  let pind1 := fst pind in
  let pind2 := snd pind in
  let st := portd_write (clear_bit PD4) st in
  let st := portd_write (clear_bit PD6) st in
  let st :=
    if truthy (Z.land (Z.lnot pind1) (Z.shiftl 1 PD1))
    then portd_write (set_bit PD4) st
    else st in
  if truthy (Z.land pind2 (Z.shiftl 1 PD1))
  then portd_write (set_bit PD6) st
  else portd_write (clear_bit PD6) (portd_write (clear_bit PD4) st).

Definition digital_main (pinds : list (Z * Z)) : portd_state :=
  fold_left digital_cycle pinds digital_init.

End WithPortD.

End DigitalInput.

(** ** examples/adc_reading/main.c *)

Module AdcReading.
Import Cint Bits.

(** [x = adc_read(channel); x = x - 512;] with [x] an [int16_t] and
    [reading] the [uint16_t] that [adc_read] returned. *)
Definition centered (reading : Z) : Z :=
  let x := to_int16 (to_uint16 reading) in
  to_int16 (x - 512).

End AdcReading.

(** ** Invariants and byte streams used in the statements *)

Module Invariants.
Import Cint Bits AvrIo AdcRegs Lcd LcdDriver Joystick DigitalInput.

(** The first zero of a buffer ends the string. *)
Fixpoint until_nul (str : list Z) : list Z :=
  match str with
  | [] => []
  | c :: rest => if c =? 0 then [] else c :: until_nul rest
  end.

(** The characters of a string as data bytes for the display. *)
Definition string_bytes (s : string) : list (bool * Z) :=
  map (fun a => (true, Z.of_nat (nat_of_ascii a))) (list_ascii_of_string s).

(** The bytes of the five commands of [lcd_init]. *)
Definition init_bytes : list (bool * Z) :=
  [ (false, LCD_CMD_FUNCTION_SET); (false, LCD_CMD_DISPLAY_ON);
    (false, LCD_CMD_CLEAR); (false, LCD_CMD_ENTRY_MODE);
    (false, LCD_CMD_LINE1) ].

(** The bytes of one logged driver call. *)
Definition call_bytes (c : lcd_call) : list (bool * Z) :=
  match c with
  | Lcd_init => init_bytes
  | Lcd_set_cursor row col =>
      [ (false, to_uint8 ((if row =? 0 then LCD_CMD_LINE1 else LCD_CMD_LINE2) + col)) ]
  | Lcd_print str => map (fun c => (true, to_uint8 c)) (until_nul (c_string str))
  end.

(** The bytes before the first cycle of the direction display: the
    initialisation, "Direction:", the cursor to line 2 and "C". *)
Definition startup_bytes : list (bool * Z) :=
  init_bytes ++ string_bytes "Direction:" ++ [ (false, LCD_CMD_LINE2) ]
  ++ string_bytes "C".

(** The bytes of one display update: cursor to line 2, three blanks, cursor
    to line 2, the label. *)
Definition update_bytes (d : joystick_direction_t) : list (bool * Z) :=
  [ (false, LCD_CMD_LINE2); (true, 32); (true, 32); (true, 32);
    (false, LCD_CMD_LINE2) ]
  ++ string_bytes (joystick_direction_to_string (enum_val d)).

Section WithIo.
Context {io : avr_io}.

(** The part of ADMUX that no read function is meant to touch: the
    reference selection of [adc_init], and nothing else set above the
    channel bits but possibly [ADLAR]. *)
Definition admux_inv (a : Z) : Prop :=
  0 <= a <= 255 /\ Z.testbit a REFS0 = true /\
  (forall i, 4 <= i -> i <> REFS0 -> i <> ADLAR -> Z.testbit a i = false).

(** From [st] to [st'] the driver pulsed the enable pin once per element of
    [news], each time with the read/write pin low, presenting these
    register-select levels and bytes, and changed no pin of the control
    port other than its three. *)
Definition lcd_strobes (st st' : lcd_io) (news : list (bool * Z)) : Prop :=
  0 <= LCD_CTRL_PORT st' <= 255 /\
  (forall i, i <> LCD_RS_PIN -> i <> LCD_RW_PIN -> i <> LCD_EN_PIN ->
     Z.testbit (LCD_CTRL_PORT st') i = Z.testbit (LCD_CTRL_PORT st) i) /\
  exists new,
    lcd_bus st' = lcd_bus st ++ new /\
    Forall (fun s => Z.testbit (fst s) LCD_RW_PIN = false /\
                     Z.testbit (fst s) LCD_EN_PIN = true) new /\
    map (fun s => (Z.testbit (fst s) LCD_RS_PIN, snd s)) new = news.

(** A value of port D with the pull-ups of the pins 0-3 on and, of the
    pins 4-7, at most [PD4] and [PD6] high. *)
Definition pullups_kept (v : Z) : Prop :=
  0 <= v <= 255 /\
  (forall i, i <> PD4 -> i <> PD6 -> Z.testbit v i = Z.testbit 15 i).

End WithIo.

End Invariants.

Import Config Cint Adc Joystick Lcd DirectionDisplay.
Import AvrIo Bits AdcRegs LcdDriver DigitalInput AdcReading Invariants.

(** ** Proof support *)

(** Every comparison of the classifier is turned into a hypothesis over [Z]
    and the case closed by linear arithmetic. *)
Ltac unfold_config :=
  unfold JOYSTICK_X_CHANNEL, JOYSTICK_Y_CHANNEL, ADC_MIN, ADC_MAX, ADC_CENTER,
    THRESHOLD_NORTH_Y, THRESHOLD_SOUTH_Y, THRESHOLD_EAST_X, THRESHOLD_WEST_X,
    CENTER_X_MIN, CENTER_X_MAX, CENTER_Y_MIN, CENTER_Y_MAX,
    DIAGONAL_THRESHOLD_HIGH, DIAGONAL_THRESHOLD_LOW in *.

Ltac split_comparisons :=
  rewrite ?Z.geb_leb, ?Z.gtb_ltb in *;
  repeat match goal with
         | |- context [ ?a <=? ?b ] =>
             destruct (Z.leb_spec a b); cbn [andb negb]; try (exfalso; lia)
         | |- context [ ?a <? ?b ] =>
             destruct (Z.ltb_spec a b); cbn [andb negb]; try (exfalso; lia)
         end.

Lemma enum_val_inj (a b : joystick_direction_t) :
  enum_val a = enum_val b -> a = b.
Proof. destruct a, b; simpl; intro H; solve [ reflexivity | discriminate H ]. Qed.

Lemma direction_eqb_spec (a b : joystick_direction_t) :
  reflect (a = b) (Spec.direction_eqb a b).
Proof.
  unfold Spec.direction_eqb.
  destruct (Z.eqb_spec (enum_val a) (enum_val b)) as [E | N]; constructor.
  - now apply enum_val_inj.
  - intros ->. now apply N.
Qed.

Lemma is_centered_unfold (x y : Z) :
  joystick_is_centered x y =
  Z.b2z ((CENTER_X_MIN <=? x) && (x <=? CENTER_X_MAX) &&
         (CENTER_Y_MIN <=? y) && (y <=? CENTER_Y_MAX)).
Proof.
  unfold joystick_is_centered, to_uint8.
  rewrite !Z.geb_leb.
  now destruct (_ && _).
Qed.

Lemma centered_truthy (x y : Z) :
  truthy (joystick_is_centered x y) =
  (CENTER_X_MIN <=? x) && (x <=? CENTER_X_MAX) &&
  (CENTER_Y_MIN <=? y) && (y <=? CENTER_Y_MAX).
Proof. rewrite is_centered_unfold. unfold truthy. now destruct (_ && _). Qed.

Lemma to_string_label (d : joystick_direction_t) :
  joystick_direction_to_string (enum_val d) = Spec.label d.
Proof. now destruct d. Qed.

(** ** The classifier at single positions *)

Example get_direction_128_128 : joystick_get_direction 128 128 = DIR_CENTER.
Proof. reflexivity. Qed.

Example get_direction_0_0 : joystick_get_direction 0 0 = DIR_SOUTH_WEST.
Proof. reflexivity. Qed.

Example get_direction_0_255 : joystick_get_direction 0 255 = DIR_NORTH_WEST.
Proof. reflexivity. Qed.

Example get_direction_128_250 : joystick_get_direction 128 250 = DIR_NORTH.
Proof. reflexivity. Qed.

(** C5: [joystick_get_direction(255, 128) = DIR_EAST]; x = 255 is at or above
    [THRESHOLD_EAST_X = 240].  The rule cascade of the specification gives
    East there too. *)
Theorem get_direction_255_128_east :
  THRESHOLD_EAST_X = 240 /\ 255 >= THRESHOLD_EAST_X /\
  joystick_get_direction 255 128 = DIR_EAST /\
  Spec.classify 255 128 = DIR_EAST.
Proof. repeat split; vm_compute; discriminate. Qed.

(** C6: [joystick_get_direction(255, 255) = DIR_NORTH_EAST], and so does every
    position with both axes above [DIAGONAL_THRESHOLD_HIGH = 230]. *)
Theorem get_direction_255_255_north_east :
  DIAGONAL_THRESHOLD_HIGH = 230 /\
  joystick_get_direction 255 255 = DIR_NORTH_EAST /\
  (forall x y, 0 <= x <= 255 -> 0 <= y <= 255 ->
     x > DIAGONAL_THRESHOLD_HIGH -> y > DIAGONAL_THRESHOLD_HIGH ->
     joystick_get_direction x y = DIR_NORTH_EAST).
Proof.
  split; [reflexivity | split; [reflexivity |]].
  intros x y Hx Hy Gx Gy.
  unfold joystick_get_direction. rewrite centered_truthy.
  unfold_config. split_comparisons; simpl; solve [ reflexivity | lia ].
Qed.

Lemma get_direction_north_east_witness :
  (0 <= 231 <= 255 /\ 0 <= 240 <= 255) /\
  joystick_get_direction 231 240 = DIR_NORTH_EAST.
Proof.
  split; [lia |].
  apply (proj2 (proj2 get_direction_255_255_north_east) 231 240);
    unfold DIAGONAL_THRESHOLD_HIGH; lia.
Defined.

(** C7: a position in none of the guarded regions falls through to the final
    [return DIR_CENTER]; (200, 200) is such a position: outside the center
    zone, both coordinates at most [DIAGONAL_THRESHOLD_HIGH = 230], no
    cardinal rule applicable. *)
Theorem get_direction_gap_center :
  (forall x y, 0 <= x <= 255 -> 0 <= y <= 255 ->
     Spec.uncovered x y -> joystick_get_direction x y = DIR_CENTER) /\
  joystick_is_centered 200 200 = 0 /\
  200 <= DIAGONAL_THRESHOLD_HIGH /\
  DIAGONAL_THRESHOLD_HIGH = 230 /\
  Spec.uncovered 200 200 /\
  joystick_get_direction 200 200 = DIR_CENTER.
Proof.
  split.
  - intros x y Hx Hy U. unfold Spec.uncovered in U.
    unfold joystick_get_direction. rewrite centered_truthy.
    unfold_config. split_comparisons; simpl; solve [ reflexivity | exfalso; lia ].
  - repeat split; try reflexivity; try (vm_compute; discriminate);
      unfold Spec.uncovered; unfold_config; lia.
Qed.

Lemma get_direction_gap_witness :
  (0 <= 200 <= 255 /\ Spec.uncovered 200 200) /\
  joystick_get_direction 200 200 = DIR_CENTER.
Proof.
  assert (U : Spec.uncovered 200 200)
    by (unfold Spec.uncovered; unfold_config; lia).
  split; [split; [lia | exact U] |].
  apply (proj1 get_direction_gap_center 200 200); [lia | lia | exact U].
Defined.

(** C9: for 240 <= x <= 255 and 110 <= y <= 180 the classifier returns
    [DIR_EAST]: the East test bounds y by [CENTER_Y_MIN = 110] and
    [CENTER_X_MAX = 180].  For y above [CENTER_Y_MAX = 160] the rule cascade
    of the specification gives the Center fallback instead. *)
Theorem get_direction_east_band (x y : Z) :
  240 <= x <= 255 -> 110 <= y <= 180 ->
  (THRESHOLD_EAST_X = 240 /\ CENTER_Y_MIN = 110 /\ CENTER_X_MAX = 180 /\
   CENTER_Y_MAX = 160) /\
  joystick_get_direction x y = DIR_EAST /\
  (CENTER_Y_MAX < y -> Spec.classify x y = DIR_CENTER).
Proof.
  intros Hx Hy. split; [now repeat split |]. split.
  - unfold joystick_get_direction. rewrite centered_truthy.
    unfold_config. split_comparisons; simpl; solve [ reflexivity | lia ].
  - intro G. unfold Spec.classify, Spec.rules, Spec.in_center_x, Spec.in_center_y.
    cbn [find fst snd]. unfold_config.
    split_comparisons; simpl; solve [ reflexivity | lia ].
Qed.

Lemma get_direction_east_band_witness :
  (240 <= 248 <= 255 /\ 110 <= 175 <= 180) /\
  joystick_get_direction 248 175 = DIR_EAST.
Proof.
  split; [lia |].
  apply (get_direction_east_band 248 175); lia.
Defined.

(** ** The classifier against the rule cascade of the specification *)

(** C1 at (255, 170): the code returns [DIR_EAST], the cascade of the
    specification, whose East rule bounds y by [CENTER_Y_MAX], reaches the
    fallback [DIR_CENTER]. *)
Theorem get_direction_differs_from_cascade :
  0 <= 255 <= 255 /\ 0 <= 170 <= 255 /\
  joystick_get_direction 255 170 = DIR_EAST /\
  Spec.classify 255 170 = DIR_CENTER /\
  joystick_get_direction 255 170 <> Spec.classify 255 170.
Proof. repeat split; try lia; vm_compute; discriminate. Qed.

(** The same on the West side. *)
Lemma get_direction_differs_from_cascade_west :
  joystick_get_direction 0 170 = DIR_WEST /\ Spec.classify 0 170 = DIR_CENTER.
Proof. split; reflexivity. Qed.

(** The two agree exactly off the strip [CENTER_Y_MAX < y <= CENTER_X_MAX]
    of the East and West columns. *)
Lemma get_direction_cascade_agreement (x y : Z) :
  0 <= x <= 255 -> 0 <= y <= 255 ->
  (joystick_get_direction x y = Spec.classify x y <->
   ~ (CENTER_Y_MAX < y <= CENTER_X_MAX /\
      (THRESHOLD_EAST_X <= x \/ x <= THRESHOLD_WEST_X))).
Proof.
  intros Hx Hy.
  unfold joystick_get_direction. rewrite centered_truthy.
  unfold Spec.classify, Spec.rules, Spec.in_center_x, Spec.in_center_y.
  cbn [find fst snd]. unfold_config.
  split_comparisons; simpl;
    (split; [ intro E; try discriminate E; lia
            | intro N; try reflexivity; exfalso; lia ]).
Qed.

(** ** Totality and labels *)

Lemma all_directions_complete (d : joystick_direction_t) :
  In d Spec.all_directions.
Proof. destruct d; simpl; tauto. Qed.

Lemma all_directions_NoDup : NoDup Spec.all_directions.
Proof.
  unfold Spec.all_directions.
  repeat (constructor; [ simpl; intuition discriminate |]).
  constructor.
Qed.

(** C2: on every pair of 8-bit values the classifier returns one of the nine
    enumerators, and exactly one: the nine are pairwise distinct, and the
    integer of the result lies between [DIR_CENTER] and [DIR_SOUTH_WEST]. *)
Theorem get_direction_total (x y : Z) :
  0 <= x <= 255 -> 0 <= y <= 255 ->
  (exists! d, In d Spec.all_directions /\ joystick_get_direction x y = d) /\
  NoDup Spec.all_directions /\ List.length Spec.all_directions = 9%nat /\
  enum_val DIR_CENTER <= enum_val (joystick_get_direction x y)
    <= enum_val DIR_SOUTH_WEST.
Proof.
  intros _ _. split; [| split; [exact all_directions_NoDup | split]].
  - exists (joystick_get_direction x y). split.
    + split; [apply all_directions_complete | reflexivity].
    + now intros d [_ E].
  - reflexivity.
  - destruct (joystick_get_direction x y); simpl; lia.
Qed.

Lemma get_direction_total_witness :
  (0 <= 12 <= 255 /\ 0 <= 250 <= 255) /\
  exists! d, In d Spec.all_directions /\ joystick_get_direction 12 250 = d.
Proof.
  split; [lia |].
  apply (get_direction_total 12 250); lia.
Defined.

(** C3: the label of a classified position is the table entry of its
    direction, one of the nine fixed labels, and never the default of the
    out-of-range branch. *)
Theorem direction_to_string_of_get_direction (x y : Z) :
  0 <= x <= 255 -> 0 <= y <= 255 ->
  let s := joystick_direction_to_string (enum_val (joystick_get_direction x y)) in
  s = Spec.label (joystick_get_direction x y) /\
  In s Spec.labels /\
  s <> "?"%string.
Proof.
  intros _ _. cbv zeta. rewrite to_string_label.
  split; [reflexivity |].
  destruct (joystick_get_direction x y); simpl;
    (split; [ tauto | discriminate ]).
Qed.

Lemma direction_to_string_witness :
  (0 <= 3 <= 255 /\ 0 <= 251 <= 255) /\
  joystick_direction_to_string (enum_val (joystick_get_direction 3 251))
  = "NW"%string.
Proof.
  split; [lia |].
  exact (proj1 (direction_to_string_of_get_direction 3 251
                  ltac:(lia) ltac:(lia))).
Defined.

(** The defensive branch itself: integers outside the enumeration map to the
    default. *)
Lemma direction_to_string_out_of_range (dir : Z) :
  dir < 0 \/ enum_val DIR_SOUTH_WEST < dir ->
  joystick_direction_to_string dir = "?"%string.
Proof.
  intro H. unfold joystick_direction_to_string. rewrite Z.geb_leb.
  simpl enum_val in *.
  destruct (Z.leb_spec 0 dir), (Z.leb_spec dir 8); simpl;
    solve [ reflexivity | lia ].
Qed.

(** ** The center predicate *)

(** C4: [joystick_is_centered] is 1 exactly on the center rectangle and 0
    elsewhere, and where it is 1 the classifier returns [DIR_CENTER]. *)
Theorem is_centered_spec (x y : Z) :
  0 <= x <= 255 -> 0 <= y <= 255 ->
  (joystick_is_centered x y = 1 <->
   (CENTER_X_MIN <= x <= CENTER_X_MAX /\ CENTER_Y_MIN <= y <= CENTER_Y_MAX)) /\
  (~ (CENTER_X_MIN <= x <= CENTER_X_MAX /\ CENTER_Y_MIN <= y <= CENTER_Y_MAX) ->
   joystick_is_centered x y = 0) /\
  (joystick_is_centered x y = 1 -> joystick_get_direction x y = DIR_CENTER).
Proof.
  intros _ _. split; [| split].
  - rewrite is_centered_unfold. unfold_config.
    split_comparisons; simpl; (split; [ intro E; try discriminate E; lia | intro; solve [ reflexivity | lia ] ]).
  - intro N. rewrite is_centered_unfold. unfold_config.
    split_comparisons; simpl; solve [ reflexivity | lia ].
  - intro E. unfold joystick_get_direction, truthy. now rewrite E.
Qed.

Lemma is_centered_witness :
  (0 <= 128 <= 255 /\ joystick_is_centered 128 128 = 1) /\
  joystick_get_direction 128 128 = DIR_CENTER.
Proof.
  split; [split; [lia | reflexivity] |].
  apply (proj2 (proj2 (is_centered_spec 128 128 ltac:(lia) ltac:(lia)))).
  reflexivity.
Defined.

(** ** ADC scaling *)

Lemma adc_to_percent_small (v : Z) :
  0 <= v <= 255 -> adc_to_percent v = v * 100 / 255.
Proof.
  intro H. unfold adc_to_percent, to_uint8, to_uint16.
  rewrite (Z.mod_small v) by lia.
  rewrite (Z.mod_small (v * 100)) by lia.
  apply Z.mod_small.
  split.
  - apply Z.div_pos; lia.
  - apply Z.div_lt_upper_bound; lia.
Qed.

(** C10: on [0,255] [adc_to_percent] is the truncating quotient of
    [value * 100] by 255, with nothing lost in the 16-bit product (at most
    25500) or in the final conversion to 8 bits; the result lies in [0,100],
    the end points map to 0 and 100, and the function is monotone. *)
Theorem adc_to_percent_spec (v w : Z) :
  0 <= v <= 255 -> 0 <= w <= 255 ->
  (to_uint16 (to_uint16 v * 100) = v * 100 /\ v * 100 <= 25500) /\
  adc_to_percent v = v * 100 / 255 /\
  adc_to_percent v = Z.quot (v * 100) 255 /\
  0 <= adc_to_percent v <= 100 /\
  adc_to_percent 0 = 0 /\
  adc_to_percent 255 = 100 /\
  (v <= w -> adc_to_percent v <= adc_to_percent w).
Proof.
  intros Hv Hw.
  pose proof (adc_to_percent_small v Hv) as Ev.
  pose proof (adc_to_percent_small w Hw) as Ew.
  repeat split; try reflexivity.
  - unfold to_uint16. rewrite (Z.mod_small v) by lia. apply Z.mod_small. lia.
  - lia.
  - exact Ev.
  - rewrite Ev. symmetry. apply Z.quot_div_nonneg; lia.
  - rewrite Ev. apply Z.div_pos; lia.
  - rewrite Ev. apply Z.div_le_upper_bound; lia.
  - intro L. rewrite Ev, Ew. apply Z.div_le_mono; lia.
Qed.

Lemma adc_to_percent_witness :
  (0 <= 128 <= 255 /\ 0 <= 200 <= 255) /\
  adc_to_percent 128 = 50 /\ adc_to_percent 128 <= adc_to_percent 200.
Proof.
  split; [lia |].
  pose proof (adc_to_percent_spec 128 200 ltac:(lia) ltac:(lia)) as H.
  split.
  - exact (proj1 (proj2 H)).
  - apply (proj2 (proj2 (proj2 (proj2 (proj2 (proj2 H)))))). lia.
Defined.

(** ** The polling loop *)

Lemma last_cons {A : Type} (a d : A) (l : list A) :
  last (a :: l) d = last l a.
Proof.
  revert a d. induction l as [| b l IH]; intros a d; [reflexivity |].
  change (last (a :: b :: l) d) with (last (b :: l) d).
  now rewrite !IH.
Qed.

Lemma loop_body_spec (st : main_state) (pos : joystick_position_t) :
  let dir := joystick_get_direction (pos_x pos) (pos_y pos) in
  last_dir (loop_body st pos) = dir /\
  lcd (loop_body st pos) =
  lcd st ++ (if Spec.direction_eqb dir (last_dir st) then []
             else update_display dir).
Proof.
  cbv zeta. unfold loop_body.
  fold (Spec.direction_eqb (joystick_get_direction (pos_x pos) (pos_y pos))
          (last_dir st)).
  destruct (direction_eqb_spec
              (joystick_get_direction (pos_x pos) (pos_y pos)) (last_dir st))
    as [E | N]; simpl.
  - split; [now symmetry | now rewrite app_nil_r].
  - split; reflexivity.
Qed.

Lemma main_loop_from_spec (samples : list joystick_position_t) :
  forall st,
    last_dir (main_loop_from st samples)
    = last (Spec.classified samples) (last_dir st) /\
    lcd (main_loop_from st samples)
    = lcd st ++ flat_map update_display
                  (Spec.dispatched (last_dir st) (Spec.classified samples)).
Proof.
  induction samples as [| pos rest IH]; intro st.
  - simpl. now rewrite app_nil_r.
  - change (main_loop_from st (pos :: rest))
      with (main_loop_from (loop_body st pos) rest).
    destruct (IH (loop_body st pos)) as [IHd IHl].
    destruct (loop_body_spec st pos) as [Bd Bl]. cbv zeta in Bd, Bl.
    change (Spec.classified (pos :: rest))
      with (joystick_get_direction (pos_x pos) (pos_y pos)
            :: Spec.classified rest).
    rewrite last_cons, IHd, IHl, Bd, Bl. split; [reflexivity |].
    cbn [Spec.dispatched]. rewrite flat_map_app, <- app_assoc.
    f_equal. f_equal.
    destruct (Spec.direction_eqb _ _); [reflexivity |].
    cbn [flat_map]. now rewrite app_nil_r.
Qed.

Lemma dispatched_no_repeat (dirs : list joystick_direction_t) :
  forall prev, Spec.no_repeat (prev :: Spec.dispatched prev dirs).
Proof.
  induction dirs as [| d rest IH]; intro prev; [exact I |].
  cbn [Spec.dispatched].
  destruct (direction_eqb_spec d prev) as [-> | N].
  - exact (IH prev).
  - split; [congruence | exact (IH d)].
Qed.

Example main_loop_run :
  let run := main_loop [ mk_position 128 128; mk_position 255 128;
                         mk_position 255 128; mk_position 255 255;
                         mk_position 200 200 ] in
  last_dir run = DIR_CENTER /\
  lcd run = lcd main_init ++ update_display DIR_EAST
            ++ update_display DIR_NORTH_EAST ++ update_display DIR_CENTER.
Proof. split; reflexivity. Qed.

Lemma shown_app (l1 l2 : list lcd_call) :
  DisplayLog.shown (l1 ++ l2) = DisplayLog.shown l1 ++ DisplayLog.shown l2.
Proof.
  induction l1 as [| c l1 IH]; [reflexivity |].
  destruct c as [| row col | s]; cbn [app DisplayLog.shown]; try exact IH.
  destruct (DisplayLog.direction_of_label s); [| exact IH].
  cbn [app]. now rewrite IH.
Qed.

Lemma update_display_calls (d : joystick_direction_t) :
  update_display d
  = [ Lcd_set_cursor 1 0; Lcd_print "   "; Lcd_set_cursor 1 0;
      Lcd_print (Spec.label d) ].
Proof. unfold update_display. now rewrite to_string_label. Qed.

Lemma shown_update_display (d : joystick_direction_t) :
  DisplayLog.shown (update_display d) = [d].
Proof. rewrite update_display_calls. now destruct d. Qed.

Lemma shown_updates (ds : list joystick_direction_t) :
  DisplayLog.shown (flat_map update_display ds) = ds.
Proof.
  induction ds as [| d ds IH]; [reflexivity |].
  cbn [flat_map]. now rewrite shown_app, shown_update_display, IH.
Qed.

(** C8: from [last_dir = DIR_CENTER], a cycle appends the display update of
    the direction it classified exactly when that direction differs from the
    one of the cycle before (Center before the first cycle), and nothing
    otherwise; over a run the display holds the updates of the direction
    changes, in order, and no two consecutive ones are equal.  An update
    moves the cursor to row 1, column 0, prints three blanks there and then
    the label of the direction, so the directions read back from the labels
    printed are Center, of the startup message, followed by exactly the
    directions at the change boundaries, one more per cycle that changes the
    direction and none per cycle that does not. *)
Theorem main_loop_dispatch (samples : list joystick_position_t) :
  let dirs := Spec.classified samples in
  last_dir (main_loop []) = DIR_CENTER /\
  last_dir (main_loop samples) = last dirs DIR_CENTER /\
  lcd (main_loop samples)
  = lcd main_init ++ flat_map update_display (Spec.dispatched DIR_CENTER dirs) /\
  Spec.no_repeat (DIR_CENTER :: Spec.dispatched DIR_CENTER dirs) /\
  (forall pos,
     let dir := joystick_get_direction (pos_x pos) (pos_y pos) in
     main_loop (samples ++ [pos]) = loop_body (main_loop samples) pos /\
     lcd (main_loop (samples ++ [pos]))
     = lcd (main_loop samples)
       ++ (if Spec.direction_eqb dir (last dirs DIR_CENTER) then []
           else update_display dir)) /\
  (forall d,
     update_display d
     = [ Lcd_set_cursor 1 0; Lcd_print "   "; Lcd_set_cursor 1 0;
         Lcd_print (Spec.label d) ]) /\
  DisplayLog.shown (lcd (main_loop samples))
  = DIR_CENTER :: Spec.dispatched DIR_CENTER dirs /\
  Spec.no_repeat (DisplayLog.shown (lcd (main_loop samples))) /\
  (forall pos,
     let dir := joystick_get_direction (pos_x pos) (pos_y pos) in
     DisplayLog.shown (lcd (main_loop (samples ++ [pos])))
     = DisplayLog.shown (lcd (main_loop samples))
       ++ (if Spec.direction_eqb dir (last dirs DIR_CENTER) then []
           else [dir])).
Proof.
  cbv zeta.
  destruct (main_loop_from_spec samples main_init) as [Hd Hl].
  assert (Step : forall pos,
    main_loop (samples ++ [pos]) = loop_body (main_loop samples) pos /\
    lcd (main_loop (samples ++ [pos]))
    = lcd (main_loop samples)
      ++ (if Spec.direction_eqb (joystick_get_direction (pos_x pos) (pos_y pos))
               (last (Spec.classified samples) DIR_CENTER)
          then [] else update_display
                         (joystick_get_direction (pos_x pos) (pos_y pos)))).
  { intro pos.
    assert (S : main_loop (samples ++ [pos])
                = loop_body (main_loop samples) pos)
      by (unfold main_loop, main_loop_from; now rewrite fold_left_app).
    split; [exact S |].
    rewrite S. destruct (loop_body_spec (main_loop samples) pos) as [_ Bl].
    cbv zeta in Bl. rewrite Bl. unfold main_loop at 2. now rewrite Hd. }
  assert (Sh : DisplayLog.shown (lcd (main_loop samples))
               = DIR_CENTER
                 :: Spec.dispatched DIR_CENTER (Spec.classified samples)).
  { unfold main_loop. rewrite Hl, shown_app, shown_updates. reflexivity. }
  split; [reflexivity |]. split; [exact Hd |]. split; [exact Hl |].
  split; [apply dispatched_no_repeat |].
  split; [exact Step |].
  split; [exact update_display_calls |].
  split; [exact Sh |].
  split; [rewrite Sh; apply dispatched_no_repeat |].
  intro pos. destruct (Step pos) as [_ L]. rewrite L, shown_app.
  f_equal.
  destruct (Spec.direction_eqb _ _); [reflexivity | apply shown_update_display].
Qed.

(** ** Further properties of the classifier and its labels *)

Lemma enum_range_cases (dir : Z) :
  0 <= dir <= enum_val DIR_SOUTH_WEST ->
  exists d, dir = enum_val d.
Proof.
  simpl. intro H.
  assert (C : dir = 0 \/ dir = 1 \/ dir = 2 \/ dir = 3 \/ dir = 4 \/
              dir = 5 \/ dir = 6 \/ dir = 7 \/ dir = 8) by lia.
  destruct C as [-> | [-> | [-> | [-> | [-> | [-> | [-> | [-> | ->]]]]]]]];
    [ now exists DIR_CENTER | now exists DIR_NORTH | now exists DIR_SOUTH
    | now exists DIR_EAST | now exists DIR_WEST | now exists DIR_NORTH_EAST
    | now exists DIR_NORTH_WEST | now exists DIR_SOUTH_EAST
    | now exists DIR_SOUTH_WEST ].
Qed.

Lemma to_string_in_or_out (dir : Z) :
  (0 <= dir <= enum_val DIR_SOUTH_WEST /\
   exists d, dir = enum_val d /\ joystick_direction_to_string dir = Spec.label d)
  \/ ((dir < 0 \/ enum_val DIR_SOUTH_WEST < dir) /\
      joystick_direction_to_string dir = "?"%string).
Proof.
  destruct (Z_lt_le_dec dir 0) as [L | L];
    [ right; split; [ now left | apply direction_to_string_out_of_range; now left ] |].
  destruct (Z_lt_le_dec (enum_val DIR_SOUTH_WEST) dir) as [G | G];
    [ right; split; [ now right | apply direction_to_string_out_of_range; now right ] |].
  left. split; [lia |].
  destruct (enum_range_cases dir ltac:(lia)) as [d ->].
  exists d. split; [reflexivity | apply to_string_label].
Qed.

(** X1: [joystick_direction_to_string] returns the default label exactly for
    the integers outside the enumeration, below [DIR_CENTER] or above
    [DIR_SOUTH_WEST]. *)
Theorem direction_to_string_default_iff (dir : Z) :
  joystick_direction_to_string dir = "?"%string <->
  (dir < enum_val DIR_CENTER \/ enum_val DIR_SOUTH_WEST < dir).
Proof.
  change (enum_val DIR_CENTER) with 0.
  destruct (to_string_in_or_out dir) as [[R [d [-> E]]] | [O E]].
  - rewrite E. split.
    + destruct d; discriminate.
    + simpl in R. simpl. lia.
  - now rewrite E.
Qed.

Lemma direction_to_string_default_witness :
  joystick_direction_to_string 9 = "?"%string /\
  joystick_direction_to_string (-1) = "?"%string.
Proof.
  split; apply direction_to_string_default_iff; simpl; lia.
Defined.

(** X2: two directions with the same label are the same direction. *)
Theorem direction_to_string_injective (a b : joystick_direction_t) :
  joystick_direction_to_string (enum_val a)
  = joystick_direction_to_string (enum_val b) ->
  a = b.
Proof.
  rewrite !to_string_label.
  destruct a, b; simpl; intro E; solve [ reflexivity | discriminate E ].
Qed.

Lemma direction_to_string_injective_witness :
  joystick_direction_to_string (enum_val (joystick_get_direction 255 128))
  = joystick_direction_to_string (enum_val DIR_EAST) /\
  joystick_get_direction 255 128 = DIR_EAST.
Proof.
  split; [reflexivity |].
  apply (direction_to_string_injective (joystick_get_direction 255 128) DIR_EAST).
  reflexivity.
Defined.


(** X4: each of the eight directions other than Center is returned exactly on
    the region of its own test; the order of the tests matters only for
    West, whose test also holds on the edge [x = CENTER_X_MIN] of the center
    zone, where Center is returned. *)
Theorem get_direction_regions (x y : Z) :
  0 <= x <= 255 -> 0 <= y <= 255 ->
  (joystick_get_direction x y = DIR_NORTH_EAST <->
   x > DIAGONAL_THRESHOLD_HIGH /\ y > DIAGONAL_THRESHOLD_HIGH) /\
  (joystick_get_direction x y = DIR_NORTH_WEST <->
   x < DIAGONAL_THRESHOLD_LOW /\ y > ADC_MAX - DIAGONAL_THRESHOLD_LOW) /\
  (joystick_get_direction x y = DIR_SOUTH_EAST <->
   x > DIAGONAL_THRESHOLD_HIGH /\ y < DIAGONAL_THRESHOLD_LOW) /\
  (joystick_get_direction x y = DIR_SOUTH_WEST <->
   x < DIAGONAL_THRESHOLD_LOW /\ y < DIAGONAL_THRESHOLD_LOW) /\
  (joystick_get_direction x y = DIR_NORTH <->
   y >= THRESHOLD_NORTH_Y /\ CENTER_X_MIN <= x <= CENTER_X_MAX) /\
  (joystick_get_direction x y = DIR_SOUTH <->
   y <= THRESHOLD_SOUTH_Y /\ CENTER_X_MIN <= x <= CENTER_X_MAX) /\
  (joystick_get_direction x y = DIR_EAST <->
   x >= THRESHOLD_EAST_X /\ CENTER_Y_MIN <= y <= CENTER_X_MAX) /\
  (joystick_get_direction x y = DIR_WEST <->
   x <= THRESHOLD_WEST_X /\ CENTER_Y_MIN <= y <= CENTER_X_MAX /\
   ~ (x = CENTER_X_MIN /\ y <= CENTER_Y_MAX)).
Proof.
  intros Hx Hy.
  unfold joystick_get_direction. rewrite centered_truthy.
  unfold_config. split_comparisons;
    repeat split; intros; try discriminate; try lia.
Qed.

Lemma get_direction_regions_witness :
  (0 <= 70 <= 255 /\ 0 <= 170 <= 255) /\
  joystick_get_direction 70 170 = DIR_WEST.
Proof.
  split; [lia |].
  apply (get_direction_regions 70 170 ltac:(lia) ltac:(lia)).
  unfold_config. lia.
Defined.

(** ** Further properties of the polling loop *)

Lemma last_app_singleton {A : Type} (l : list A) (a d : A) :
  last (l ++ [a]) d = a.
Proof.
  revert d. induction l as [| b l IH]; intro d; [reflexivity |].
  change ((b :: l) ++ [a]) with (b :: (l ++ [a])).
  rewrite last_cons. apply IH.
Qed.

Lemma main_loop_from_in_sync (samples : list joystick_position_t) :
  forall st,
    last (lcd st) Lcd_init
    = Lcd_print (joystick_direction_to_string (enum_val (last_dir st))) ->
    last (lcd (main_loop_from st samples)) Lcd_init
    = Lcd_print (joystick_direction_to_string
                   (enum_val (last_dir (main_loop_from st samples)))).
Proof.
  induction samples as [| pos rest IH]; intros st H; [exact H |].
  change (main_loop_from st (pos :: rest))
    with (main_loop_from (loop_body st pos) rest).
  apply IH. unfold loop_body.
  destruct (negb _); [| exact H].
  cbn [lcd last_dir]. unfold update_display.
  change [Lcd_set_cursor 1 0; Lcd_print "   "; Lcd_set_cursor 1 0;
          Lcd_print (joystick_direction_to_string
                       (enum_val (joystick_get_direction (pos_x pos) (pos_y pos))))]
    with ([Lcd_set_cursor 1 0; Lcd_print "   "; Lcd_set_cursor 1 0]
          ++ [Lcd_print (joystick_direction_to_string
                (enum_val (joystick_get_direction (pos_x pos) (pos_y pos))))]).
  rewrite app_assoc. apply last_app_singleton.
Qed.

(** X5: after any number of cycles the most recent call to the display is the
    print of the label of the most recent sample's direction (of "C" before
    the first sample): what the display was last told is the current
    direction. *)
Theorem main_loop_display_in_sync (samples : list joystick_position_t) :
  last (lcd (main_loop samples)) Lcd_init
  = Lcd_print (joystick_direction_to_string
                 (enum_val (last (Spec.classified samples) DIR_CENTER))).
Proof.
  destruct (main_loop_from_spec samples main_init) as [Hd _].
  cbn [last_dir main_init] in Hd. rewrite <- Hd.
  apply main_loop_from_in_sync. reflexivity.
Qed.

(** X6: cycles whose samples classify to the direction of the cycle before
    them change nothing: while the stick is held (or rests, from the start),
    there is no display traffic. *)
Theorem main_loop_held_no_traffic (samples more : list joystick_position_t) :
  Forall (fun p => joystick_get_direction (pos_x p) (pos_y p)
                   = last (Spec.classified samples) DIR_CENTER) more ->
  main_loop (samples ++ more) = main_loop samples.
Proof.
  intro H. unfold main_loop, main_loop_from. rewrite fold_left_app.
  destruct (main_loop_from_spec samples main_init) as [Hd _].
  cbn [last_dir main_init] in Hd. unfold main_loop_from in Hd.
  rewrite <- Hd in H.
  induction H as [| p more Hp _ IH]; [reflexivity |].
  cbn [fold_left]. unfold loop_body at 2.
  rewrite Hp, Z.eqb_refl. exact IH.
Qed.

Lemma main_loop_held_witness :
  main_loop [ mk_position 255 128; mk_position 250 120; mk_position 245 170 ]
  = main_loop [ mk_position 255 128 ].
Proof.
  apply (main_loop_held_no_traffic [ mk_position 255 128 ]
           [ mk_position 250 120; mk_position 245 170 ]).
  repeat constructor.
Defined.

(** ** Further properties of the ADC scaling *)

(** X7: one step of the raw value raises the percentage by at most one, and
    every percentage from 0 to 100 is the value of some raw reading. *)
Theorem adc_to_percent_steps (v p : Z) :
  0 <= v < 255 -> 0 <= p <= 100 ->
  0 <= adc_to_percent (v + 1) - adc_to_percent v <= 1 /\
  exists r, 0 <= r <= 255 /\ adc_to_percent r = p.
Proof.
  intros Hv Hp. split.
  - rewrite !adc_to_percent_small by lia.
    pose proof (Z.div_mod (v * 100) 255 ltac:(lia)) as E1.
    pose proof (Z.mod_pos_bound (v * 100) 255 ltac:(lia)) as B1.
    pose proof (Z.div_mod ((v + 1) * 100) 255 ltac:(lia)) as E2.
    pose proof (Z.mod_pos_bound ((v + 1) * 100) 255 ltac:(lia)) as B2.
    lia.
  - exists ((p * 255 + 99) / 100).
    pose proof (Z.div_mod (p * 255 + 99) 100 ltac:(lia)) as E.
    pose proof (Z.mod_pos_bound (p * 255 + 99) 100 ltac:(lia)) as B.
    assert (R : 0 <= (p * 255 + 99) / 100 <= 255) by lia.
    split; [exact R |].
    rewrite adc_to_percent_small by exact R.
    symmetry. apply (Z.div_unique _ _ p ((p * 255 + 99) / 100 * 100 - 255 * p)); lia.
Qed.

Lemma adc_to_percent_steps_witness :
  (0 <= 127 < 255 /\ 0 <= 50 <= 100) /\
  0 <= adc_to_percent (127 + 1) - adc_to_percent 127 <= 1.
Proof.
  split; [lia |].
  exact (proj1 (adc_to_percent_steps 127 50 ltac:(lia) ltac:(lia))).
Defined.

(** X8: only the full-scale reading 255 gives 100 percent, exactly the
    readings 0, 1 and 2 give 0 percent, and a reading at or above
    [ADC_CENTER] gives at least 50 percent. *)
Theorem adc_to_percent_extremes (v : Z) :
  0 <= v <= 255 ->
  (adc_to_percent v = 100 <-> v = ADC_MAX) /\
  (adc_to_percent v = 0 <-> v <= 2) /\
  (ADC_CENTER <= v <-> 50 <= adc_to_percent v).
Proof.
  intro Hv. rewrite adc_to_percent_small by exact Hv. unfold ADC_MAX, ADC_CENTER.
  pose proof (Z.div_mod (v * 100) 255 ltac:(lia)) as E.
  pose proof (Z.mod_pos_bound (v * 100) 255 ltac:(lia)) as B.
  repeat split; intros; lia.
Qed.

Lemma adc_to_percent_extremes_witness :
  0 <= 255 <= 255 /\ adc_to_percent 255 = 100.
Proof.
  split; [lia |].
  apply (adc_to_percent_extremes 255 ltac:(lia)). reflexivity.
Defined.

(** ** Bits of 8-bit registers *)

Lemma to_uint8_range (a : Z) : 0 <= to_uint8 a <= 255.
Proof. unfold to_uint8. pose proof (Z.mod_pos_bound a 256 ltac:(lia)). lia. Qed.

Lemma to_uint8_small (a : Z) : 0 <= a <= 255 -> to_uint8 a = a.
Proof. intro H. apply Z.mod_small. lia. Qed.

Lemma testbit_to_uint8 (a i : Z) :
  Z.testbit (to_uint8 a) i = (i <? 8) && Z.testbit a i.
Proof.
  unfold to_uint8. change 256 with (2 ^ 8). apply Z.testbit_mod_pow2. lia.
Qed.

Lemma testbit_uint8_high (a i : Z) :
  0 <= a <= 255 -> 8 <= i -> Z.testbit a i = false.
Proof.
  intros Ha Hi. rewrite <- (to_uint8_small a Ha), testbit_to_uint8.
  destruct (Z.ltb_spec i 8); [lia | reflexivity].
Qed.

Lemma testbit_one_shifted (n i : Z) :
  0 <= n -> Z.testbit (Z.shiftl 1 n) i = (n =? i).
Proof. intro Hn. rewrite Z.shiftl_1_l. now apply Z.pow2_bits_eqb. Qed.

Lemma testbit_set_bit (n reg i : Z) :
  0 <= n ->
  Z.testbit (set_bit n reg) i = (i <? 8) && (Z.testbit reg i || (n =? i)).
Proof.
  intro Hn. unfold set_bit.
  now rewrite testbit_to_uint8, Z.lor_spec, testbit_one_shifted.
Qed.

Lemma testbit_clear_bit (n reg i : Z) :
  0 <= n ->
  Z.testbit (clear_bit n reg) i
  = (i <? 8) && (Z.testbit reg i && negb (n =? i)).
Proof.
  intro Hn. unfold clear_bit. rewrite testbit_to_uint8, Z.land_spec.
  destruct (Z_lt_le_dec i 0) as [Neg | Pos].
  - rewrite !(Z.testbit_neg_r _ i Neg). reflexivity.
  - now rewrite (Z.lnot_spec _ _ Pos), testbit_one_shifted.
Qed.

Lemma land_one_shifted (x n : Z) :
  0 <= n ->
  Z.land x (Z.shiftl 1 n) = if Z.testbit x n then Z.shiftl 1 n else 0.
Proof.
  intro Hn. apply Z.bits_inj'. intros i Hi.
  rewrite Z.land_spec, testbit_one_shifted by exact Hn.
  destruct (Z.eqb_spec n i) as [<- | Ne].
  - destruct (Z.testbit x n); simpl.
    + rewrite testbit_one_shifted by exact Hn. now rewrite Z.eqb_refl.
    + now rewrite Z.bits_0.
  - rewrite andb_false_r. destruct (Z.testbit x n).
    + rewrite testbit_one_shifted by exact Hn.
      symmetry. now apply Z.eqb_neq.
    + now rewrite Z.bits_0.
Qed.

Lemma truthy_land_bit (x n : Z) :
  0 <= n -> truthy (Z.land x (Z.shiftl 1 n)) = Z.testbit x n.
Proof.
  intro Hn. rewrite land_one_shifted by exact Hn. unfold truthy.
  destruct (Z.testbit x n); [| reflexivity].
  rewrite Z.shiftl_1_l.
  pose proof (Z.pow_pos_nonneg 2 n ltac:(lia) Hn).
  destruct (Z.eqb_spec (2 ^ n) 0); [lia | reflexivity].
Qed.

Lemma truthy_land_lnot_bit (x n : Z) :
  0 <= n -> truthy (Z.land (Z.lnot x) (Z.shiftl 1 n)) = negb (Z.testbit x n).
Proof.
  intro Hn. rewrite truthy_land_bit by exact Hn. now apply Z.lnot_spec.
Qed.

(** ** src/adc.c: the channel selection and the result alignment *)

Section AdcRegsFacts.
Context {io : avr_io}.

Lemma testbit_select_channel (admux channel i : Z) :
  0 <= i ->
  Z.testbit (adc_select_channel admux channel) i
  = if i <? 4 then Z.testbit channel i else (i <? 8) && Z.testbit admux i.
Proof.
  intro Hi. unfold adc_select_channel.
  rewrite testbit_to_uint8, Z.lor_spec, !Z.land_spec.
  change 240 with (Z.shiftl (Z.ones 4) 4). change 15 with (Z.ones 4).
  rewrite (Z.shiftl_spec _ _ _ Hi), !Z.testbit_ones by lia.
  destruct (Z.ltb_spec i 4), (Z.ltb_spec i 8), (Z.leb_spec 0 i),
    (Z.leb_spec 0 (i - 4)), (Z.ltb_spec (i - 4) 4); try lia;
    cbn [andb orb]; rewrite ?andb_false_r, ?andb_true_r, ?orb_false_r;
    reflexivity.
Qed.

Lemma low_nibble_eq (a b : Z) :
  (forall i, 0 <= i < 4 -> Z.testbit a i = Z.testbit b i) ->
  a mod 16 = b mod 16.
Proof.
  intro H. change 16 with (2 ^ 4). rewrite <- !Z.land_ones by lia.
  apply Z.bits_inj'. intros i Hi.
  rewrite !Z.land_spec, Z.testbit_ones by lia.
  destruct (Z.leb_spec 0 i), (Z.ltb_spec i 4); cbn [andb];
    rewrite ?andb_false_r, ?andb_true_r; try reflexivity; try lia.
  apply H. lia.
Qed.

Lemma adc_call_ADMUX_bits (admux : Z) (c : adc_call) :
  admux_bits_ok io -> 0 <= admux <= 255 ->
  let a := adc_call_ADMUX admux c in
  0 <= a <= 255 /\
  a mod 16 = (match c with Adc_read ch | Adc_read_8bit ch => ch end) mod 16 /\
  Z.testbit a ADLAR = (match c with Adc_read _ => false | Adc_read_8bit _ => true end) /\
  (forall i, 4 <= i -> i <> ADLAR -> Z.testbit a i = Z.testbit admux i).
Proof.
  intros (HA & HR & Hne) Hadm. cbv zeta.
  assert (HA0 : 0 <= ADLAR) by lia.
  destruct c as [ch | ch]; cbn [adc_call_ADMUX];
    unfold adc_read_ADMUX, adc_read_8bit_ADMUX.
  - split; [unfold clear_bit; apply to_uint8_range |]. split; [| split].
    + apply low_nibble_eq. intros i Hi.
      rewrite testbit_clear_bit, testbit_select_channel by lia.
      destruct (Z.ltb_spec i 8), (Z.ltb_spec i 4), (Z.eqb_spec ADLAR i);
        try lia. cbn [andb negb]. now rewrite andb_true_r.
    + rewrite testbit_clear_bit, Z.eqb_refl by lia.
      cbn [negb]. now rewrite !andb_false_r.
    + intros i Hi Hn.
      rewrite testbit_clear_bit, testbit_select_channel by lia.
      destruct (Z.ltb_spec i 8), (Z.ltb_spec i 4), (Z.eqb_spec ADLAR i);
        try lia; cbn [andb negb]; rewrite ?andb_true_r; try reflexivity.
      symmetry. apply testbit_uint8_high; lia.
  - split; [unfold set_bit; apply to_uint8_range |]. split; [| split].
    + apply low_nibble_eq. intros i Hi.
      rewrite testbit_set_bit, testbit_select_channel by lia.
      destruct (Z.ltb_spec i 8), (Z.ltb_spec i 4), (Z.eqb_spec ADLAR i);
        try lia. cbn [andb]. now rewrite orb_false_r.
    + rewrite testbit_set_bit, Z.eqb_refl by lia.
      rewrite orb_true_r.
      destruct (Z.ltb_spec ADLAR 8); [reflexivity | lia].
    + intros i Hi Hn.
      rewrite testbit_set_bit, testbit_select_channel by lia.
      destruct (Z.ltb_spec i 8), (Z.ltb_spec i 4), (Z.eqb_spec ADLAR i);
        try lia; cbn [andb]; rewrite ?orb_false_r; try reflexivity.
      symmetry. apply testbit_uint8_high; lia.
Qed.

End AdcRegsFacts.

Section AdcRegsTheorems.
Context {io : avr_io}.

Lemma adc_init_ADMUX_bits (i : Z) :
  admux_bits_ok io ->
  Z.testbit adc_init_ADMUX i = (i <? 8) && ((REFS0 =? i) || (ADLAR =? i)).
Proof.
  intros (HA & HR & _). unfold adc_init_ADMUX.
  now rewrite testbit_to_uint8, Z.lor_spec, !testbit_one_shifted by lia.
Qed.

Lemma adc_init_ADMUX_inv : admux_bits_ok io -> admux_inv adc_init_ADMUX.
Proof.
  intros Hok. pose proof Hok as (HA & HR & Hne).
  split; [apply to_uint8_range |]. split.
  - rewrite adc_init_ADMUX_bits, Z.eqb_refl by exact Hok.
    destruct (Z.ltb_spec REFS0 8); [reflexivity | lia].
  - intros i Hi N1 N2. rewrite adc_init_ADMUX_bits by exact Hok.
    destruct (Z.eqb_spec REFS0 i), (Z.eqb_spec ADLAR i); try congruence.
    now rewrite andb_false_r.
Qed.

Lemma adc_call_ADMUX_inv (a : Z) (c : adc_call) :
  admux_bits_ok io -> admux_inv a -> admux_inv (adc_call_ADMUX a c).
Proof.
  intros Hok (Ra & Href & Hz). pose proof Hok as (HA & HR & Hne).
  destruct (adc_call_ADMUX_bits a c Hok Ra) as (R' & _ & _ & Keep).
  split; [exact R' |]. split.
  - rewrite Keep by lia. exact Href.
  - intros i Hi N1 N2. rewrite Keep by lia. now apply Hz.
Qed.

Lemma adc_fold_ADMUX_inv (calls : list adc_call) :
  admux_bits_ok io ->
  forall a, admux_inv a -> admux_inv (fold_left adc_call_ADMUX calls a).
Proof.
  intro Hok. induction calls as [| c rest IH]; intros a Ha; [exact Ha |].
  cbn [fold_left]. apply IH. now apply adc_call_ADMUX_inv.
Qed.

(** X9: a read function leaves in ADMUX the low four bits of its channel
    argument (so a channel of 16 or more selects the channel of its
    remainder by 16), sets [ADLAR] for an 8-bit read and clears it for a
    10-bit one, and leaves the other upper bits, the reference selection
    among them, as they were. *)
Theorem adc_read_ADMUX_effect (admux channel : Z) :
  admux_bits_ok io -> 0 <= admux <= 255 ->
  let a8 := adc_read_8bit_ADMUX admux channel in
  let a10 := adc_read_ADMUX admux channel in
  (0 <= a8 <= 255 /\ 0 <= a10 <= 255) /\
  (a8 mod 16 = channel mod 16 /\ a10 mod 16 = channel mod 16) /\
  (Z.testbit a8 ADLAR = true /\ Z.testbit a10 ADLAR = false) /\
  (forall i, 4 <= i -> i <> ADLAR ->
     Z.testbit a8 i = Z.testbit admux i /\ Z.testbit a10 i = Z.testbit admux i).
Proof.
  intros Hok Ra. cbv zeta.
  destruct (adc_call_ADMUX_bits admux (Adc_read_8bit channel) Hok Ra)
    as (R8 & L8 & A8 & K8).
  destruct (adc_call_ADMUX_bits admux (Adc_read channel) Hok Ra)
    as (R10 & L10 & A10 & K10).
  cbn [adc_call_ADMUX] in *.
  repeat split; try assumption; try lia; [now apply K8 | now apply K10].
Qed.

(** X10: after [adc_init] and any sequence of reads, 8-bit and 10-bit in any
    order, ADMUX still selects the reference that [adc_init] chose and has
    no other upper bit set but possibly [ADLAR]; channel and alignment are
    those of the last read.  After the two reads of [joystick_read] the
    channel is [JOYSTICK_Y_CHANNEL] and the result left-adjusted. *)
Theorem adc_calls_ADMUX_invariant (calls : list adc_call) (c : adc_call) :
  admux_bits_ok io ->
  let a := adc_calls_ADMUX calls in
  let a' := adc_calls_ADMUX (calls ++ [c]) in
  let aj := adc_calls_ADMUX (calls ++ joystick_read_calls) in
  (0 <= a <= 255 /\ Z.testbit a REFS0 = true /\
   (forall i, 4 <= i -> i <> REFS0 -> i <> ADLAR -> Z.testbit a i = false)) /\
  (a' mod 16 = (match c with Adc_read ch | Adc_read_8bit ch => ch end) mod 16 /\
   Z.testbit a' ADLAR
   = match c with Adc_read _ => false | Adc_read_8bit _ => true end) /\
  (aj mod 16 = JOYSTICK_Y_CHANNEL /\ Z.testbit aj ADLAR = true).
Proof.
  intro Hok. cbv zeta. unfold adc_calls_ADMUX.
  pose proof (adc_fold_ADMUX_inv calls Hok _ (adc_init_ADMUX_inv Hok)) as I.
  split; [exact I |]. split.
  - rewrite fold_left_app. cbn [fold_left].
    destruct I as (Ra & _).
    destruct (adc_call_ADMUX_bits _ c Hok Ra) as (_ & L & A & _).
    now split.
  - rewrite fold_left_app. unfold joystick_read_calls. cbn [fold_left].
    pose proof (adc_call_ADMUX_inv _ (Adc_read_8bit JOYSTICK_X_CHANNEL) Hok I)
      as (Rx & _).
    destruct (adc_call_ADMUX_bits _ (Adc_read_8bit JOYSTICK_Y_CHANNEL) Hok Rx)
      as (_ & L & A & _).
    now split.
Qed.

End AdcRegsTheorems.

Lemma adc_read_ADMUX_effect_witness :
  (admux_bits_ok atmega16 /\ 0 <= 96 <= 255) /\
  adc_read_8bit_ADMUX (io := atmega16) 96 17 mod 16 = 17 mod 16.
Proof.
  assert (Hok : admux_bits_ok atmega16)
    by (unfold admux_bits_ok; simpl; lia).
  split; [split; [exact Hok | lia] |].
  apply (adc_read_ADMUX_effect (io := atmega16) 96 17 Hok ltac:(lia)).
Defined.

Lemma adc_calls_ADMUX_invariant_witness :
  admux_bits_ok atmega16 /\
  Z.testbit (adc_calls_ADMUX (io := atmega16)
               [ Adc_read 3; Adc_read_8bit 1; Adc_read 0 ]) 6 = true.
Proof.
  assert (Hok : admux_bits_ok atmega16)
    by (unfold admux_bits_ok; simpl; lia).
  split; [exact Hok |].
  apply (adc_calls_ADMUX_invariant (io := atmega16)
           [ Adc_read 3; Adc_read_8bit 1; Adc_read 0 ] (Adc_read 0) Hok).
Defined.

(** ** src/lcd.c: what reaches the display *)

Ltac solve_bits :=
  repeat first [ rewrite testbit_set_bit by lia
               | rewrite testbit_clear_bit by lia ];
  repeat match goal with
         | |- context [ ?a =? ?b ] => destruct (Z.eqb_spec a b)
         | |- context [ ?a <? 8 ] => destruct (Z.ltb_spec a 8)
         end;
  try lia; cbn [andb orb negb];
  rewrite ?andb_true_r, ?andb_false_r, ?orb_true_r, ?orb_false_r;
  try reflexivity.

Section LcdDriverFacts.
Context {io : avr_io}.

Lemma lcd_strobes_refl (st : lcd_io) :
  0 <= LCD_CTRL_PORT st <= 255 -> lcd_strobes st st [].
Proof.
  intro R. split; [exact R |]. split; [reflexivity |].
  exists []. rewrite app_nil_r. repeat split. constructor.
Qed.

Lemma lcd_strobes_trans (a b c : lcd_io) (n1 n2 : list (bool * Z)) :
  lcd_strobes a b n1 -> lcd_strobes b c n2 -> lcd_strobes a c (n1 ++ n2).
Proof.
  intros (_ & K1 & new1 & B1 & F1 & M1) (R2 & K2 & new2 & B2 & F2 & M2).
  split; [exact R2 |]. split.
  - intros i Hrs Hrw Hen. rewrite K2, K1 by assumption. reflexivity.
  - exists (new1 ++ new2). split; [| split].
    + now rewrite B2, B1, app_assoc.
    + apply Forall_app. now split.
    + now rewrite map_app, M1, M2.
Qed.

Lemma lcd_write_strobes (rs : bool) (byte : Z) (st : lcd_io) :
  portb_pins_ok io -> 0 <= LCD_CTRL_PORT st <= 255 ->
  lcd_strobes st ((if rs then lcd_data else lcd_command) byte st)
              [ (rs, to_uint8 byte) ].
Proof.
  intros (H0 & H1 & H2 & N01 & N02 & N12) R.
  pose proof (fun i => testbit_uint8_high (LCD_CTRL_PORT st) i R) as High.
  destruct rs; unfold lcd_data, lcd_command, lcd_enable_pulse, with_ctrl_port,
    with_data_port, lcd_strobes, LCD_RS_PIN, LCD_RW_PIN, LCD_EN_PIN;
    cbn [LCD_CTRL_PORT LCD_DATA_PORT LCD_CTRL_DDR LCD_DATA_DDR lcd_bus].
  all: split; [unfold clear_bit; apply to_uint8_range |].
  all: split;
    [ intros i Nrs Nrw Nen; solve_bits; symmetry; apply High; lia |].
  all: eexists; split; [reflexivity |]; split;
    [ constructor; [| constructor]; cbn [fst]; split; solve_bits
    | cbn [map fst snd]; do 2 f_equal; solve_bits ].
Qed.

Lemma lcd_command_strobes (cmd : Z) (st : lcd_io) :
  portb_pins_ok io -> 0 <= LCD_CTRL_PORT st <= 255 ->
  lcd_strobes st (lcd_command cmd st) [ (false, to_uint8 cmd) ].
Proof. exact (lcd_write_strobes false cmd st). Qed.

Lemma lcd_data_strobes (data : Z) (st : lcd_io) :
  portb_pins_ok io -> 0 <= LCD_CTRL_PORT st <= 255 ->
  lcd_strobes st (lcd_data data st) [ (true, to_uint8 data) ].
Proof. exact (lcd_write_strobes true data st). Qed.

Lemma lcd_print_strobes (str : list Z) :
  portb_pins_ok io ->
  forall st, 0 <= LCD_CTRL_PORT st <= 255 ->
  lcd_strobes st (lcd_print str st)
              (map (fun c => (true, to_uint8 c)) (until_nul str)).
Proof.
  intro Hok. induction str as [| c rest IH]; intros st R.
  - now apply lcd_strobes_refl.
  - cbn [lcd_print until_nul]. unfold truthy.
    destruct (Z.eqb_spec c 0) as [-> | Nz]; cbn [negb].
    + now apply lcd_strobes_refl.
    + pose proof (lcd_data_strobes c st Hok R) as S1.
      pose proof S1 as (R1 & _).
      exact (lcd_strobes_trans _ _ _ _ _ S1 (IH _ R1)).
Qed.

Lemma lcd_init_strobes (st : lcd_io) :
  portb_pins_ok io -> 0 <= LCD_CTRL_PORT st <= 255 ->
  lcd_strobes st (lcd_init st) init_bytes.
Proof.
  intros Hok R. unfold lcd_init.
  set (st0 := mk_lcd_io _ _ _ _ _).
  assert (S0 : lcd_strobes st st0 []).
  { split; [exact R |]. split; [reflexivity |].
    exists []. cbn [lcd_bus st0]. rewrite app_nil_r. repeat split. constructor. }
  cbv zeta.
  pose proof (lcd_command_strobes LCD_CMD_FUNCTION_SET st0 Hok R) as S1.
  pose proof S1 as (R1 & _).
  pose proof (lcd_command_strobes LCD_CMD_DISPLAY_ON _ Hok R1) as S2.
  pose proof S2 as (R2 & _).
  pose proof (lcd_command_strobes LCD_CMD_CLEAR _ Hok R2) as S3.
  pose proof S3 as (R3 & _).
  pose proof (lcd_command_strobes LCD_CMD_ENTRY_MODE _ Hok R3) as S4.
  pose proof S4 as (R4 & _).
  pose proof (lcd_command_strobes LCD_CMD_LINE1 _ Hok R4) as S5.
  exact (lcd_strobes_trans _ _ _ _ _ S0
           (lcd_strobes_trans _ _ _ _ _ S1
              (lcd_strobes_trans _ _ _ _ _ S2
                 (lcd_strobes_trans _ _ _ _ _ S3
                    (lcd_strobes_trans _ _ _ _ _ S4 S5))))).
Qed.

Lemma lcd_received_strobes (st st' : lcd_io) (news : list (bool * Z)) :
  lcd_strobes st st' news -> lcd_received st' = lcd_received st ++ news.
Proof.
  intros (_ & _ & new & B & _ & M). unfold lcd_received.
  now rewrite B, map_app, M.
Qed.

Lemma lcd_exec_strobes (c : lcd_call) (st : lcd_io) :
  portb_pins_ok io -> 0 <= LCD_CTRL_PORT st <= 255 ->
  lcd_strobes st (lcd_exec st c) (call_bytes c).
Proof.
  intros Hok R. destruct c as [| row col | str]; cbn [lcd_exec call_bytes].
  - now apply lcd_init_strobes.
  - unfold lcd_set_cursor.
    destruct (row =? 0);
      rewrite <- (to_uint8_small (to_uint8 _) (to_uint8_range _)) at 2;
      now apply lcd_command_strobes.
  - now apply lcd_print_strobes.
Qed.

Lemma lcd_exec_all_strobes (calls : list lcd_call) :
  portb_pins_ok io ->
  forall st, 0 <= LCD_CTRL_PORT st <= 255 ->
  lcd_strobes st (lcd_exec_all st calls) (flat_map call_bytes calls).
Proof.
  intro Hok. induction calls as [| c rest IH]; intros st R.
  - now apply lcd_strobes_refl.
  - change (lcd_exec_all st (c :: rest)) with (lcd_exec_all (lcd_exec st c) rest).
    cbn [flat_map].
    pose proof (lcd_exec_strobes c st Hok R) as S1.
    pose proof S1 as (R1 & _).
    exact (lcd_strobes_trans _ _ _ _ _ S1 (IH _ R1)).
Qed.

End LcdDriverFacts.

Section LcdDriverTheorems.
Context {io : avr_io}.

(** X11: [lcd_command] and [lcd_data] each pulse the enable pin once and
    present their argument as a byte, with register select low for a command
    and high for a character; they return with enable and read/write low and
    register select as presented. *)
Theorem lcd_command_data_strobe (byte : Z) (st : lcd_io) :
  portb_pins_ok io -> 0 <= LCD_CTRL_PORT st <= 255 ->
  let sc := lcd_command byte st in
  let sd := lcd_data byte st in
  (lcd_received sc = lcd_received st ++ [ (false, byte mod 256) ] /\
   lcd_received sd = lcd_received st ++ [ (true, byte mod 256) ]) /\
  (Z.testbit (LCD_CTRL_PORT sc) LCD_RS_PIN = false /\
   Z.testbit (LCD_CTRL_PORT sd) LCD_RS_PIN = true) /\
  (Z.testbit (LCD_CTRL_PORT sc) LCD_RW_PIN = false /\
   Z.testbit (LCD_CTRL_PORT sd) LCD_RW_PIN = false) /\
  (Z.testbit (LCD_CTRL_PORT sc) LCD_EN_PIN = false /\
   Z.testbit (LCD_CTRL_PORT sd) LCD_EN_PIN = false) /\
  (LCD_DATA_PORT sc = byte mod 256 /\ LCD_DATA_PORT sd = byte mod 256).
Proof.
  intros Hok R. cbv zeta.
  split.
  { split; apply lcd_received_strobes;
      [ now apply lcd_command_strobes | now apply lcd_data_strobes ]. }
  destruct Hok as (H0 & H1 & H2 & N01 & N02 & N12).
  unfold lcd_data, lcd_command, lcd_enable_pulse, with_ctrl_port,
    with_data_port, LCD_RS_PIN, LCD_RW_PIN, LCD_EN_PIN;
    cbn [LCD_CTRL_PORT LCD_DATA_PORT LCD_CTRL_DDR LCD_DATA_DDR lcd_bus].
  repeat split; solve_bits.
Qed.

(** X12: whatever sequence of [lcd_init], [lcd_set_cursor] and [lcd_print]
    calls is carried out, the driver changes no pin of the control port
    other than its three, pulses enable only with read/write low (it never
    reads from the display), and the display receives the bytes of the
    calls in order. *)
Theorem lcd_exec_all_invariant (calls : list lcd_call) (st : lcd_io) :
  portb_pins_ok io -> 0 <= LCD_CTRL_PORT st <= 255 ->
  let st' := lcd_exec_all st calls in
  (forall i, i <> LCD_RS_PIN -> i <> LCD_RW_PIN -> i <> LCD_EN_PIN ->
     Z.testbit (LCD_CTRL_PORT st') i = Z.testbit (LCD_CTRL_PORT st) i) /\
  (exists new,
     lcd_bus st' = lcd_bus st ++ new /\
     Forall (fun s => Z.testbit (fst s) LCD_RW_PIN = false /\
                      Z.testbit (fst s) LCD_EN_PIN = true) new) /\
  lcd_received st' = lcd_received st ++ flat_map call_bytes calls.
Proof.
  intros Hok R. cbv zeta.
  pose proof (lcd_exec_all_strobes calls Hok st R) as S.
  split; [| split].
  - now destruct S as (_ & K & _).
  - destruct S as (_ & _ & new & B & F & _). now exists new.
  - now apply lcd_received_strobes.
Qed.

(** X13: [lcd_print] sends the characters before the first zero of the
    buffer, in order, and nothing of what follows it; an empty string sends
    nothing.  Printing a string in two parts is printing it whole. *)
Theorem lcd_print_chars (chars more rest : list Z) (st : lcd_io) :
  portb_pins_ok io -> 0 <= LCD_CTRL_PORT st <= 255 ->
  Forall (fun c => c <> 0) chars ->
  lcd_received (lcd_print (chars ++ 0 :: rest) st)
  = lcd_received st ++ map (fun c => (true, c mod 256)) chars /\
  lcd_print (0 :: rest) st = st /\
  lcd_print (chars ++ more ++ 0 :: rest) st
  = lcd_print (more ++ 0 :: rest) (lcd_print (chars ++ [0]) st).
Proof.
  intros Hok R Nz. split; [| split].
  - rewrite (lcd_received_strobes _ _ _ (lcd_print_strobes _ Hok st R)).
    f_equal. f_equal.
    induction Nz as [| c chars Hc _ IH]; [reflexivity |].
    cbn [app until_nul].
    destruct (Z.eqb_spec c 0); [contradiction | now rewrite IH].
  - reflexivity.
  - clear R. revert st.
    induction Nz as [| c chars Hc _ IH]; intro st; [reflexivity |].
    cbn [app lcd_print]. unfold truthy.
    destruct (Z.eqb_spec c 0); [contradiction |]. cbn [negb]. apply IH.
Qed.


(** X15: over a run of the direction display the display receives the
    initialisation commands, "Direction:", the cursor command of line 2 and
    "C", and then for every change of direction, and for nothing else, the
    cursor command of line 2, three blanks, the cursor command again and the
    characters of the new label. *)
Theorem direction_display_bytes (samples : list joystick_position_t)
        (st : lcd_io) :
  portb_pins_ok io -> 0 <= LCD_CTRL_PORT st <= 255 ->
  lcd_received (lcd_exec_all st (lcd (main_loop samples)))
  = lcd_received st ++ startup_bytes
    ++ flat_map update_bytes
         (Spec.dispatched DIR_CENTER (Spec.classified samples)).
Proof.
  intros Hok R.
  rewrite (lcd_received_strobes _ _ _ (lcd_exec_all_strobes _ Hok st R)).
  f_equal.
  destruct (main_loop_from_spec samples main_init) as [_ Hl].
  unfold main_loop. rewrite Hl, flat_map_app. f_equal.
  cbn [last_dir main_init].
  induction (Spec.dispatched DIR_CENTER (Spec.classified samples))
    as [| d ds IH]; [reflexivity |].
  cbn [flat_map]. rewrite flat_map_app, IH. f_equal.
  now destruct d.
Qed.

End LcdDriverTheorems.

Example update_bytes_north_east :
  update_bytes DIR_NORTH_EAST
  = [ (false, 192); (true, 32); (true, 32); (true, 32); (false, 192);
      (true, 78); (true, 69) ].
Proof. reflexivity. Qed.

Lemma lcd_command_data_strobe_witness :
  (portb_pins_ok atmega16 /\ 0 <= 0 <= 255) /\
  lcd_received (io := atmega16)
    (lcd_data (io := atmega16) 65 (mk_lcd_io 0 0 0 0 []))
  = [ (true, 65) ].
Proof.
  assert (Hok : portb_pins_ok atmega16)
    by (unfold portb_pins_ok; simpl; lia).
  split; [split; [exact Hok | lia] |].
  apply (lcd_command_data_strobe (io := atmega16) 65 (mk_lcd_io 0 0 0 0 [])
           Hok ltac:(simpl; lia)).
Defined.

Lemma lcd_exec_all_invariant_witness :
  (portb_pins_ok atmega16 /\ 0 <= 248 <= 255) /\
  lcd_received (io := atmega16)
    (lcd_exec_all (io := atmega16) (mk_lcd_io 248 0 0 0 [])
       [ Lcd_set_cursor 1 0; Lcd_print "NE" ])
  = [ (false, 192); (true, 78); (true, 69) ].
Proof.
  assert (Hok : portb_pins_ok atmega16)
    by (unfold portb_pins_ok; simpl; lia).
  split; [split; [exact Hok | lia] |].
  apply (lcd_exec_all_invariant (io := atmega16)
           [ Lcd_set_cursor 1 0; Lcd_print "NE" ] (mk_lcd_io 248 0 0 0 [])
           Hok ltac:(simpl; lia)).
Defined.

Lemma lcd_print_chars_witness :
  (portb_pins_ok atmega16 /\ Forall (fun c => c <> 0) [ 88; 61 ]) /\
  lcd_received (io := atmega16)
    (lcd_print (io := atmega16) ([ 88; 61 ] ++ 0 :: [ 7; 7 ])
       (mk_lcd_io 0 0 0 0 []))
  = [ (true, 88); (true, 61) ].
Proof.
  assert (Hok : portb_pins_ok atmega16)
    by (unfold portb_pins_ok; simpl; lia).
  assert (Nz : Forall (fun c => c <> 0) [ 88; 61 ])
    by (repeat constructor; lia).
  split; [split; [exact Hok | exact Nz] |].
  apply (lcd_print_chars (io := atmega16) [ 88; 61 ] [] [ 7; 7 ]
           (mk_lcd_io 0 0 0 0 []) Hok ltac:(simpl; lia) Nz).
Defined.


Lemma direction_display_bytes_witness :
  (portb_pins_ok atmega16 /\ 0 <= 0 <= 255) /\
  lcd_received (io := atmega16)
    (lcd_exec_all (io := atmega16) (mk_lcd_io 0 0 0 0 [])
       (lcd (main_loop [ mk_position 128 128; mk_position 255 255 ])))
  = startup_bytes ++ update_bytes DIR_NORTH_EAST.
Proof.
  assert (Hok : portb_pins_ok atmega16)
    by (unfold portb_pins_ok; simpl; lia).
  split; [split; [exact Hok | lia] |].
  apply (direction_display_bytes (io := atmega16)
           [ mk_position 128 128; mk_position 255 255 ] (mk_lcd_io 0 0 0 0 [])
           Hok ltac:(simpl; lia)).
Defined.

(** ** examples/digital_input/main.c: the two indicator pins *)

Section DigitalInputTheorems.
Context {io : avr_io}.

Lemma portd_bit_other (n v i : Z) :
  0 <= n -> 0 <= v <= 255 -> i <> n ->
  Z.testbit (set_bit n v) i = Z.testbit v i /\
  Z.testbit (clear_bit n v) i = Z.testbit v i.
Proof.
  intros Hn Hv Ne.
  pose proof (fun j => testbit_uint8_high v j Hv) as High.
  split; solve_bits; symmetry; apply High; lia.
Qed.

Lemma portd_bit_range (n v : Z) :
  0 <= set_bit n v <= 255 /\ 0 <= clear_bit n v <= 255.
Proof. split; apply to_uint8_range. Qed.

(** X16: at the end of a cycle pin [PD6] is high exactly if the second read
    of [PIND] saw [PD1] high, and pin [PD4] exactly if the first read saw
    [PD1] low and the second saw it high; no other pin of the port changes.
    With an input that is the same at both reads, [PD4] is therefore low at
    the end of every cycle, pressed or not. *)
Theorem digital_cycle_leds (st : portd_state) (pind1 pind2 : Z) :
  portd_pins_ok io -> 0 <= PORTD st <= 255 ->
  let st' := digital_cycle st (pind1, pind2) in
  0 <= PORTD st' <= 255 /\
  Z.testbit (PORTD st') PD4
  = negb (Z.testbit pind1 PD1) && Z.testbit pind2 PD1 /\
  Z.testbit (PORTD st') PD6 = Z.testbit pind2 PD1 /\
  (forall i, i <> PD4 -> i <> PD6 ->
     Z.testbit (PORTD st') i = Z.testbit (PORTD st) i) /\
  (Z.testbit pind1 PD1 = Z.testbit pind2 PD1 ->
   Z.testbit (PORTD st') PD4 = false).
Proof.
  intros (H1 & H4 & H6 & N46) R. cbv zeta.
  pose proof (fun j => testbit_uint8_high (PORTD st) j R) as High.
  unfold digital_cycle, portd_write. cbn [fst snd PORTD portd_writes].
  rewrite truthy_land_lnot_bit, truthy_land_bit by lia.
  destruct (Z.testbit pind1 PD1), (Z.testbit pind2 PD1);
    cbn [negb andb PORTD portd_writes];
    (split; [ unfold set_bit, clear_bit; apply to_uint8_range |]);
    (split; [ solve_bits |]); (split; [ solve_bits |]);
    (split;
     [ intros i N4 N6; solve_bits; symmetry; apply High; lia
     | intro E; try discriminate E; solve_bits ]).
Qed.

(** X17: with [PD1] low at both reads (pressed) a cycle makes five writes to
    the port: [PD4] goes high at the third and low again at the fourth, so
    its indicator is lit only inside the cycle; with [PD1] high at both reads
    a cycle makes three writes, [PD6] low after the second and high after
    the third. *)
Theorem digital_cycle_writes (st : portd_state) (pind1 pind2 : Z) :
  portd_pins_ok io -> 0 <= PORTD st <= 255 ->
  let st' := digital_cycle st (pind1, pind2) in
  (Z.testbit pind1 PD1 = false -> Z.testbit pind2 PD1 = false ->
   exists w1 w2 w3 w4 w5,
     portd_writes st' = portd_writes st ++ [ w1; w2; w3; w4; w5 ] /\
     PORTD st' = w5 /\
     Z.testbit w2 PD4 = false /\ Z.testbit w3 PD4 = true /\
     Z.testbit w4 PD4 = false /\ Z.testbit w5 PD4 = false /\
     Z.testbit w5 PD6 = false) /\
  (Z.testbit pind1 PD1 = true -> Z.testbit pind2 PD1 = true ->
   exists w1 w2 w3,
     portd_writes st' = portd_writes st ++ [ w1; w2; w3 ] /\
     PORTD st' = w3 /\
     Z.testbit w2 PD6 = false /\ Z.testbit w3 PD6 = true /\
     Z.testbit w3 PD4 = false).
Proof.
  intros (H1 & H4 & H6 & N46) R. cbv zeta.
  unfold digital_cycle, portd_write. cbn [fst snd PORTD portd_writes].
  rewrite truthy_land_lnot_bit, truthy_land_bit by lia.
  split; intros E1 E2; rewrite E1, E2; cbn [negb PORTD portd_writes].
  - do 5 eexists. split; [| split; [reflexivity |]].
    + rewrite <- !app_assoc. reflexivity.
    + repeat split; solve_bits.
  - do 3 eexists. split; [| split; [reflexivity |]].
    + rewrite <- !app_assoc. reflexivity.
    + repeat split; solve_bits.
Qed.

Lemma pullups_kept_write (n : Z) (st : portd_state) :
  portd_pins_ok io -> n = PD4 \/ n = PD6 ->
  pullups_kept (PORTD st) /\ Forall pullups_kept (portd_writes st) ->
  (pullups_kept (PORTD (portd_write (set_bit n) st)) /\
   Forall pullups_kept (portd_writes (portd_write (set_bit n) st))) /\
  (pullups_kept (PORTD (portd_write (clear_bit n) st)) /\
   Forall pullups_kept (portd_writes (portd_write (clear_bit n) st))).
Proof.
  intros (H1 & H4 & H6 & N46) Hn ((Rv & Kv) & F).
  assert (N0 : 0 <= n) by (destruct Hn; lia).
  assert (S : pullups_kept (set_bit n (PORTD st))).
  { split; [apply portd_bit_range |]. intros i N4' N6'.
    rewrite (proj1 (portd_bit_other n _ i N0 Rv ltac:(destruct Hn; congruence))).
    now apply Kv. }
  assert (C : pullups_kept (clear_bit n (PORTD st))).
  { split; [apply portd_bit_range |]. intros i N4' N6'.
    rewrite (proj2 (portd_bit_other n _ i N0 Rv ltac:(destruct Hn; congruence))).
    now apply Kv. }
  unfold portd_write. cbn [PORTD portd_writes].
  repeat split; try (apply S); try (apply C);
    apply Forall_app; (split; [exact F | now constructor]).
Qed.

Lemma pullups_kept_cycle (st : portd_state) (pind : Z * Z) :
  portd_pins_ok io ->
  pullups_kept (PORTD st) /\ Forall pullups_kept (portd_writes st) ->
  pullups_kept (PORTD (digital_cycle st pind)) /\
  Forall pullups_kept (portd_writes (digital_cycle st pind)).
Proof.
  intros Hok I. unfold digital_cycle.
  pose proof (fun n Hn s I => proj1 (pullups_kept_write n s Hok Hn I)) as Set_.
  pose proof (fun n Hn s I => proj2 (pullups_kept_write n s Hok Hn I)) as Clr.
  pose proof (Clr PD4 (or_introl eq_refl) _ I) as I1.
  pose proof (Clr PD6 (or_intror eq_refl) _ I1) as I2.
  cbv zeta.
  destruct (truthy (Z.land (Z.lnot (fst pind)) _));
    destruct (truthy (Z.land (snd pind) _)).
  - apply (Set_ PD6 (or_intror eq_refl)). now apply (Set_ PD4 (or_introl eq_refl)).
  - apply (Clr PD6 (or_intror eq_refl)). apply (Clr PD4 (or_introl eq_refl)).
    now apply (Set_ PD4 (or_introl eq_refl)).
  - now apply (Set_ PD6 (or_intror eq_refl)).
  - apply (Clr PD6 (or_intror eq_refl)). now apply (Clr PD4 (or_introl eq_refl)).
Qed.

(** X18: whatever the inputs, every value the program ever writes to port D
    keeps the pull-ups of the four input pins on (the low four bits are
    1111) and drives none of the pins 4-7 high but [PD4] and [PD6]. *)
Theorem digital_main_pullups (pinds : list (Z * Z)) :
  portd_pins_ok io ->
  Forall (fun v =>
            0 <= v <= 255 /\ v mod 16 = 15 /\
            (forall i, 4 <= i -> i <> PD4 -> i <> PD6 -> Z.testbit v i = false))
         (portd_writes (digital_main pinds)).
Proof.
  intro Hok.
  assert (I : pullups_kept (PORTD (digital_main pinds)) /\
              Forall pullups_kept (portd_writes (digital_main pinds))).
  { unfold digital_main.
    assert (I0 : pullups_kept (PORTD digital_init) /\
                 Forall pullups_kept (portd_writes digital_init)).
    { assert (P : pullups_kept 15) by (split; [lia | reflexivity]).
      split; [exact P | now repeat constructor]. }
    revert I0. generalize digital_init.
    induction pinds as [| pind rest IH]; intros st I0; [exact I0 |].
    cbn [fold_left]. apply IH. now apply pullups_kept_cycle. }
  destruct I as (_ & F). revert F. apply Forall_impl.
  intros v (Rv & Kv). split; [exact Rv |]. split.
  - change (v mod 16 = 15 mod 16). apply low_nibble_eq.
    intros i Hi. destruct Hok as (_ & H4 & H6 & _). apply Kv; lia.
  - intros i Hi N4 N6. rewrite Kv by assumption.
    change 15 with (Z.ones 4). rewrite Z.testbit_ones by lia.
    destruct (Z.ltb_spec i 4); [lia | now rewrite andb_false_r].
Qed.

End DigitalInputTheorems.

Lemma digital_cycle_leds_witness :
  (portd_pins_ok atmega16 /\ 0 <= 15 <= 255) /\
  Z.testbit (PORTD (digital_cycle (io := atmega16) (mk_portd 15 []) (0, 0))) 4
  = false.
Proof.
  assert (Hok : portd_pins_ok atmega16)
    by (unfold portd_pins_ok; simpl; lia).
  split; [split; [exact Hok | lia] |].
  apply (digital_cycle_leds (io := atmega16) (mk_portd 15 []) 0 0
           Hok ltac:(simpl; lia)).
  reflexivity.
Defined.

Lemma digital_cycle_writes_witness :
  (portd_pins_ok atmega16 /\ 0 <= 15 <= 255) /\
  exists w1 w2 w3 w4 w5,
    portd_writes (digital_cycle (io := atmega16) (mk_portd 15 []) (0, 0))
    = [] ++ [ w1; w2; w3; w4; w5 ] /\
    PORTD (digital_cycle (io := atmega16) (mk_portd 15 []) (0, 0)) = w5 /\
    Z.testbit w2 4 = false /\ Z.testbit w3 4 = true /\
    Z.testbit w4 4 = false /\ Z.testbit w5 4 = false /\
    Z.testbit w5 6 = false.
Proof.
  assert (Hok : portd_pins_ok atmega16)
    by (unfold portd_pins_ok; simpl; lia).
  split; [split; [exact Hok | lia] |].
  apply (digital_cycle_writes (io := atmega16) (mk_portd 15 []) 0 0
           Hok ltac:(simpl; lia)); reflexivity.
Defined.

Lemma digital_main_pullups_witness :
  portd_pins_ok atmega16 /\
  Forall (fun v =>
            0 <= v <= 255 /\ v mod 16 = 15 /\
            (forall i, 4 <= i -> i <> 4 -> i <> 6 -> Z.testbit v i = false))
         (portd_writes (digital_main (io := atmega16) [ (0, 0); (2, 2); (0, 2) ])).
Proof.
  assert (Hok : portd_pins_ok atmega16)
    by (unfold portd_pins_ok; simpl; lia).
  split; [exact Hok |].
  apply (digital_main_pullups (io := atmega16) [ (0, 0); (2, 2); (0, 2) ] Hok).
Defined.

Example digital_main_run :
  portd_writes (digital_main (io := atmega16) [ (0, 0); (2, 2) ])
  = [ 15; 15; 15; 31; 15; 15; 15; 15; 79 ].
Proof. reflexivity. Qed.

(** ** examples/adc_reading/main.c: centering *)

(** X19: for a 10-bit reading the centered value is the reading less 512,
    without wrap-around in the 16-bit variable; it ranges from -512 to 511
    and is 0 exactly for the reading 512. *)
Theorem centered_range (reading : Z) :
  0 <= reading <= 1023 ->
  centered reading = reading - 512 /\
  -512 <= centered reading <= 511 /\
  (centered reading = 0 <-> reading = 512).
Proof.
  intro H.
  assert (E : centered reading = reading - 512).
  { unfold centered, to_int16, to_uint16.
    rewrite (Z.mod_small reading) by lia.
    rewrite (Z.mod_small (reading + 32768)) by lia.
    replace (reading + 32768 - 32768 - 512 + 32768) with (reading + 32256) by lia.
    rewrite (Z.mod_small (reading + 32256)) by lia. lia. }
  rewrite E. lia.
Qed.

Lemma centered_range_witness :
  0 <= 1023 <= 1023 /\ centered 1023 = 1023 - 512.
Proof.
  split; [lia |].
  apply (centered_range 1023). lia.
Defined.
